(** * Cloud resource manager: lifecycle, decorators and the authorization gate

    A shallow embedding of the Python sources under [src/core], [src/patterns]
    and [src/services].  Python objects live in a heap addressed by
    references, so that a decorator and the resource it wraps share the one
    underlying object as they do in the program; methods are computations in
    a small state/exception/output monad. *)

From stdpp Require Import base option list strings gmap pretty.
From Stdlib Require Import ZArith Lia.

Local Open Scope string_scope.
Local Open Scope list_scope.

(** ** Python values *)

(** core/eviction_strategy.py: the two concrete strategy classes. *)
Inductive EvictionStrategy := LRUStrategy | FIFOStrategy.

Definition evict (s : EvictionStrategy) : string :=
  match s with
  | LRUStrategy => "Evicting least recently used items"
  | FIFOStrategy => "Evicting oldest items first"
  end.

(** The values that configuration dictionaries and resource attributes hold:
    [None], booleans, integers, strings and strategy instances. *)
Inductive pyval :=
| PyNone
| PyBool (b : bool)
| PyInt (z : Z)
| PyStr (s : string)
| PyStrategy (e : EvictionStrategy).

Global Instance EvictionStrategy_eq_dec : EqDecision EvictionStrategy.
Proof. solve_decision. Defined.
Global Instance pyval_eq_dec : EqDecision pyval.
Proof. solve_decision. Defined.

Definition nl : string := String (Ascii.ascii_of_nat 10) EmptyString.

(** [x.__class__.__name__] *)
Definition class_name (v : pyval) : string :=
  match v with
  | PyNone => "NoneType"
  | PyBool _ => "bool"
  | PyInt _ => "int"
  | PyStr _ => "str"
  | PyStrategy LRUStrategy => "LRUStrategy"
  | PyStrategy FIFOStrategy => "FIFOStrategy"
  end.

(** [str(x)], as an f-string placeholder renders it.  The strategy classes
    define no [__str__]; the default rendering of an instance ends in its
    memory address, which is left out here: what is proved of a text that
    a value is rendered into is proved for values that are no such
    instances ([is_instance] below). *)
Definition py_str (v : pyval) : string :=
  match v with
  | PyNone => "None"
  | PyBool true => "True"
  | PyBool false => "False"
  | PyInt z => pretty z
  | PyStr s => s
  | PyStrategy e =>
      "<src.core.eviction_strategy." +:+ class_name (PyStrategy e) +:+ " object>"
  end.

(** Truth value of [x] in [if x] / [a if x else b]. *)
Definition truthy (v : pyval) : bool :=
  match v with
  | PyNone => false
  | PyBool b => b
  | PyInt z => negb (z =? 0)%Z
  | PyStr s => negb (String.eqb s "")
  | PyStrategy _ => true
  end.

(** [x == 'LRU'] and friends: comparison of a value with a string literal. *)
Definition eq_str (v : pyval) (s : string) : bool :=
  match v with
  | PyStr t => String.eqb t s
  | _ => false
  end.

(** ** Exceptions, results and the method monad *)

Inductive exn :=
| ValueError (msg : string)
| KeyError (key : string)
| TypeError (callee : string)
| FileNotFoundError (path : string)
| OSError (class msg : string)
| RecursionError (msg : string).

Global Instance exn_eq_dec : EqDecision exn.
Proof. solve_decision. Defined.

(** [str(e)] *)
Definition exn_str (e : exn) : string :=
  match e with
  | ValueError msg => msg
  | KeyError key => "'" +:+ key +:+ "'"
  | TypeError callee => callee
  | FileNotFoundError path => path
  | OSError _ msg => msg
  | RecursionError msg => msg
  end.

(** A call returns, raises, or is [Stuck]: the last is no Python outcome but
    marks a reference outside the heap or a delegation chain longer than the
    heap, neither of which the constructors of the program can build. *)
Inductive result (A : Type) :=
| Ok (a : A)
| Raise (e : exn)
| Stuck.
Arguments Ok {A} a.
Arguments Raise {A} e.
Arguments Stuck {A}.

(** One line written to standard output.  [Log m] is the line
    [[LOG <timestamp>] m] of [LoggingDecorator._log]; the wall-clock
    timestamp is not part of the model. *)
Inductive line :=
| Print (s : string)
| Log (message : string).

(** A method body: from the state before the call to the outcome, the state
    after the call and the lines printed.  A raised exception keeps the
    mutations and the output made before it. *)
Definition M (S A : Type) : Type := S → result A * S * list line.

Global Instance M_ret {S} : MRet (M S) := λ A a s, (Ok a, s, []).

Global Instance M_bind {S} : MBind (M S) := λ A B f m s,
  match m s with
  | (Ok a, s1, o1) => let '(r, s2, o2) := f a s1 in (r, s2, o1 ++ o2)
  | (Raise e, s1, o1) => (Raise e, s1, o1)
  | (Stuck, s1, o1) => (Stuck, s1, o1)
  end.

Definition raise {S A} (e : exn) : M S A := λ s, (Raise e, s, []).
Definition stuck {S A} : M S A := λ s, (Stuck, s, []).
Definition print {S} (s : string) : M S unit := λ st, (Ok (), st, [Print s]).
Definition modify {S} (f : S → S) : M S unit := λ s, (Ok (), f s, []).

(** [try: body / except Exception as e: handler(e)] *)
Definition try_except {S A} (body : M S A) (handler : exn → M S A) : M S A := λ s,
  match body s with
  | (Raise e, s1, o1) => let '(r, s2, o2) := handler e s1 in (r, s2, o1 ++ o2)
  | other => other
  end.

(** Projections of an outcome. *)
Definition outcome {S A} (x : result A * S * list line) : result A := x.1.1.
Definition post {S A} (x : result A * S * list line) : S := x.1.2.
Definition output {S A} (x : result A * S * list line) : list line := x.2.
Arguments outcome {S A} x /.
Arguments post {S A} x /.
Arguments output {S A} x /.

(** ** core/resource_state.py and core/cloud_resource.py *)

Inductive ResourceState := CreatedState | RunningState | StoppedState | DeletedState.

Global Instance ResourceState_eq_dec : EqDecision ResourceState.
Proof. solve_decision. Defined.

Definition get_state_name (st : ResourceState) : string :=
  match st with
  | CreatedState => "CREATED"
  | RunningState => "RUNNING"
  | StoppedState => "STOPPED"
  | DeletedState => "DELETED"
  end.

Abbreviation loc := nat.

(** The instances the program allocates, with their attributes.  A
    [LoggingDecorator] holds a reference to the object it wraps and its own
    copies of [id], [name] and [current_state], taken when it is built
    ([ResourceDecorator.__init__]). *)
Inductive object :=
| AppService (id name runtime region replica_count : pyval)
    (current_state : ResourceState)
| StorageAccount (id name encryption_enabled max_size_gb : pyval)
    (current_state : ResourceState)
| CacheDB (id name ttl_seconds capacity_mb eviction_policy : pyval)
    (current_state : ResourceState)
| LoggingDecorator (wrapped_resource : loc) (id name : pyval)
    (current_state : ResourceState).

Abbreviation Heap := (list object).

Definition attr_id (o : object) : pyval :=
  match o with
  | AppService i _ _ _ _ _ | StorageAccount i _ _ _ _
  | CacheDB i _ _ _ _ _ | LoggingDecorator _ i _ _ => i
  end.

Definition attr_name (o : object) : pyval :=
  match o with
  | AppService _ n _ _ _ _ | StorageAccount _ n _ _ _
  | CacheDB _ n _ _ _ _ | LoggingDecorator _ _ n _ => n
  end.

Definition attr_current_state (o : object) : ResourceState :=
  match o with
  | AppService _ _ _ _ _ st | StorageAccount _ _ _ _ st
  | CacheDB _ _ _ _ _ st | LoggingDecorator _ _ _ st => st
  end.

(** [o.current_state = st] *)
Definition assign_current_state (st : ResourceState) (o : object) : object :=
  match o with
  | AppService i n a b c _ => AppService i n a b c st
  | StorageAccount i n a b _ => StorageAccount i n a b st
  | CacheDB i n a b c _ => CacheDB i n a b c st
  | LoggingDecorator w i n _ => LoggingDecorator w i n st
  end.

Definition is_decorator (o : object) : bool :=
  match o with LoggingDecorator _ _ _ _ => true | _ => false end.

Definition load (l : loc) : M Heap object := λ h,
  match h !! l with
  | Some o => (Ok o, h, [])
  | None => (Stuck, h, [])
  end.

Definition alloc (o : object) : M Heap loc := λ h, (Ok (length h), h ++ [o], []).

(** [CloudResource.set_state]: [self.current_state = state]. *)
Definition CloudResource_set_state (self : loc) (state : ResourceState) : M Heap unit :=
  o ← load self;
  modify (λ h : Heap, <[self := assign_current_state state o]> h).

(** The [start], [stop] and [delete] methods of the four state classes; the
    receiver is the state, [resource] the object whose state it is. *)
Definition ResourceState_start (st : ResourceState) (resource : loc) : M Heap unit :=
  match st with
  | CreatedState =>
      o ← load resource;
      print ("Starting " +:+ py_str (attr_name o) +:+ "...");;
      CloudResource_set_state resource RunningState
  | RunningState => raise (ValueError "Resource is already running")
  | StoppedState =>
      o ← load resource;
      print ("Restarting " +:+ py_str (attr_name o) +:+ "...");;
      CloudResource_set_state resource RunningState
  | DeletedState => raise (ValueError "Cannot start a deleted resource")
  end.

Definition ResourceState_stop (st : ResourceState) (resource : loc) : M Heap unit :=
  match st with
  | CreatedState => raise (ValueError "Cannot stop a resource that hasn't been started")
  | RunningState =>
      o ← load resource;
      print ("Stopping " +:+ py_str (attr_name o) +:+ "...");;
      CloudResource_set_state resource StoppedState
  | StoppedState => raise (ValueError "Resource is already stopped")
  | DeletedState => raise (ValueError "Cannot stop a deleted resource")
  end.

Definition ResourceState_delete (st : ResourceState) (resource : loc) : M Heap unit :=
  match st with
  | CreatedState =>
      o ← load resource;
      print ("Deleting " +:+ py_str (attr_name o) +:+ "...");;
      CloudResource_set_state resource DeletedState
  | RunningState => raise (ValueError "Cannot delete a running resource. Stop it first")
  | StoppedState =>
      o ← load resource;
      print ("Deleting " +:+ py_str (attr_name o) +:+ "...");;
      CloudResource_set_state resource DeletedState
  | DeletedState => raise (ValueError "Resource is already deleted")
  end.

(** The three lifecycle operations. *)
Inductive operation := Start | Stop | Delete.

Global Instance operation_eq_dec : EqDecision operation.
Proof. solve_decision. Defined.

Definition ResourceState_apply (op : operation) : ResourceState → loc → M Heap unit :=
  match op with
  | Start => ResourceState_start
  | Stop => ResourceState_stop
  | Delete => ResourceState_delete
  end.

(** The words of the log lines of [LoggingDecorator]. *)
Definition verb (op : operation) : string :=
  match op with Start => "start" | Stop => "stop" | Delete => "delete" end.
Definition verb_past (op : operation) : string :=
  match op with Start => "started" | Stop => "stopped" | Delete => "deleted" end.

Definition _log {S} (message : string) : M S unit := λ s, (Ok (), s, [Log message]).

(** [self.start()], [self.stop()], [self.delete()] with the method chosen by
    the class of the receiver: [CloudResource] hands the call to the current
    state object, [LoggingDecorator] logs around the same call on the
    wrapped object and re-raises what it raised.  [fuel] bounds the length of
    the delegation chain. *)
Fixpoint call_at (fuel : nat) (op : operation) (self : loc) : M Heap unit :=
  match fuel with
  | O => stuck
  | S fuel' =>
      o ← load self;
      match o with
      | LoggingDecorator wrapped_resource _ name _ =>
          _log ("Attempting to " +:+ verb op +:+ " resource: " +:+ py_str name);;
          try_except
            (call_at fuel' op wrapped_resource;;
             _log ("Successfully " +:+ verb_past op +:+ " resource: " +:+ py_str name))
            (λ e,
               _log ("Failed to " +:+ verb op +:+ " resource: " +:+ py_str name
                     +:+ " - " +:+ exn_str e);;
               raise e)
      | _ => ResourceState_apply op (attr_current_state o) self
      end
  end.

(** [self.get_state()] *)
Fixpoint get_state_at (fuel : nat) (self : loc) : M Heap string :=
  match fuel with
  | O => stuck
  | S fuel' =>
      o ← load self;
      match o with
      | LoggingDecorator wrapped_resource _ _ _ => get_state_at fuel' wrapped_resource
      | _ => mret (get_state_name (attr_current_state o))
      end
  end.

(** [self.get_details()]: the three resource classes format their
    attributes; [ResourceDecorator.get_details] asks the wrapped object. *)
Fixpoint get_details_at (fuel : nat) (self : loc) : M Heap string :=
  match fuel with
  | O => stuck
  | S fuel' =>
      o ← load self;
      match o with
      | AppService id name runtime region replica_count st =>
          mret ("AppService[" +:+ py_str id +:+ "]: " +:+ py_str name +:+ nl
                +:+ "  State: " +:+ get_state_name st +:+ nl
                +:+ "  Runtime: " +:+ py_str runtime +:+ nl
                +:+ "  Region: " +:+ py_str region +:+ nl
                +:+ "  Replicas: " +:+ py_str replica_count)
      | StorageAccount id name encryption_enabled max_size_gb st =>
          mret ("StorageAccount[" +:+ py_str id +:+ "]: " +:+ py_str name +:+ nl
                +:+ "  State: " +:+ get_state_name st +:+ nl
                +:+ "  Encryption: "
                +:+ (if truthy encryption_enabled then "Enabled" else "Disabled") +:+ nl
                +:+ "  Max Size: " +:+ py_str max_size_gb +:+ "GB")
      | CacheDB id name ttl_seconds capacity_mb eviction_policy st =>
          mret ("CacheDB[" +:+ py_str id +:+ "]: " +:+ py_str name +:+ nl
                +:+ "  State: " +:+ get_state_name st +:+ nl
                +:+ "  TTL: " +:+ py_str ttl_seconds +:+ "s" +:+ nl
                +:+ "  Capacity: " +:+ py_str capacity_mb +:+ "MB" +:+ nl
                +:+ "  Eviction: " +:+ class_name eviction_policy)
      | LoggingDecorator wrapped_resource _ _ _ => get_details_at fuel' wrapped_resource
      end
  end.

(** The methods as a caller invokes them on a reference.  A delegation chain
    never visits an object twice, so the size of the heap bounds it. *)
Module CloudResource.

Definition call (op : operation) (self : loc) : M Heap unit :=
  λ h, call_at (length h) op self h.

Definition start : loc → M Heap unit := call Start.
Definition stop : loc → M Heap unit := call Stop.
Definition delete : loc → M Heap unit := call Delete.

Definition get_state (self : loc) : M Heap string :=
  λ h, get_state_at (length h) self h.

Definition get_details (self : loc) : M Heap string :=
  λ h, get_details_at (length h) self h.

End CloudResource.

(** ** patterns/resource_decorator.py *)

Module LoggingDecorator.

(** [LoggingDecorator(wrapped_resource)]: [ResourceDecorator.__init__]
    copies [id], [name] and [current_state] from the wrapped object. *)
Definition new (wrapped_resource : loc) : M Heap loc :=
  o ← load wrapped_resource;
  alloc (LoggingDecorator wrapped_resource (attr_id o) (attr_name o)
           (attr_current_state o)).

(** [n] decorators, one around the other. *)
Fixpoint wrap (n : nat) (resource : loc) : M Heap loc :=
  match n with
  | O => mret resource
  | S n' => d ← new resource; wrap n' d
  end.

End LoggingDecorator.

(** ** The transition table of the specification

    [transition st op] is the state that the table of the specification gives
    for operation [op] in state [st], [None] where the table says "fails". *)
Definition transition (st : ResourceState) (op : operation) : option ResourceState :=
  match st, op with
  | CreatedState, Start => Some RunningState
  | CreatedState, Stop => None
  | CreatedState, Delete => Some DeletedState
  | RunningState, Start => None
  | RunningState, Stop => Some StoppedState
  | RunningState, Delete => None
  | StoppedState, Start => Some RunningState
  | StoppedState, Stop => None
  | StoppedState, Delete => Some DeletedState
  | DeletedState, _ => None
  end.

(** The message of the [ValueError] that refuses [op] in state [st]. *)
Definition refusal (st : ResourceState) (op : operation) : string :=
  match st, op with
  | CreatedState, Stop => "Cannot stop a resource that hasn't been started"
  | RunningState, Start => "Resource is already running"
  | RunningState, Delete => "Cannot delete a running resource. Stop it first"
  | StoppedState, Stop => "Resource is already stopped"
  | DeletedState, Start => "Cannot start a deleted resource"
  | DeletedState, Stop => "Cannot stop a deleted resource"
  | DeletedState, Delete => "Resource is already deleted"
  | _, _ => ""
  end.

(** The line a state prints when it accepts [op]. *)
Definition announce (st : ResourceState) (op : operation) (name : pyval) : string :=
  match st, op with
  | StoppedState, Start => "Restarting " +:+ py_str name +:+ "..."
  | _, Start => "Starting " +:+ py_str name +:+ "..."
  | _, Stop => "Stopping " +:+ py_str name +:+ "..."
  | _, Delete => "Deleting " +:+ py_str name +:+ "..."
  end.

(** [delegates h l b k]: following [wrapped_resource] from [l] through [k]
    decorators ends at the plain resource [b]. *)
Inductive delegates (h : Heap) : loc → loc → nat → Prop :=
| delegates_here l o :
    h !! l = Some o → is_decorator o = false → delegates h l l 0
| delegates_next l w i n st b k :
    h !! l = Some (LoggingDecorator w i n st) →
    delegates h w b k → delegates h l b (S k).

(** A sequence of lifecycle calls on references into one heap, each run to
    its end whatever its outcome; the heap after the last one. *)
Fixpoint run_calls (calls : list (operation * loc)) (h : Heap) : Heap :=
  match calls with
  | [] => h
  | (op, l) :: rest => run_calls rest (post (CloudResource.call op l h))
  end.

(** ** patterns/resource_factory.py *)

(** The classes the registry holds. *)
Inductive resource_class := AppService_class | StorageAccount_class | CacheDB_class.

Global Instance resource_class_eq_dec : EqDecision resource_class.
Proof. solve_decision. Defined.

Definition init_name (cls : resource_class) : string :=
  match cls with
  | AppService_class => "AppService.__init__"
  | StorageAccount_class => "StorageAccount.__init__"
  | CacheDB_class => "CacheDB.__init__"
  end.

(** Calling a class with positional arguments: the constructors take
    [resource_id], [name] and the attributes of the class, and
    [CloudResource.__init__] starts every resource in [CreatedState];
    another number of arguments is a [TypeError]. *)
Definition instantiate (cls : resource_class) (args : list pyval) : M Heap loc :=
  match cls, args with
  | AppService_class, [resource_id; name; runtime; region; replica_count] =>
      alloc (AppService resource_id name runtime region replica_count CreatedState)
  | StorageAccount_class, [resource_id; name; encryption_enabled; max_size_gb] =>
      alloc (StorageAccount resource_id name encryption_enabled max_size_gb CreatedState)
  | CacheDB_class, [resource_id; name; ttl_seconds; capacity_mb; eviction_policy] =>
      alloc (CacheDB resource_id name ttl_seconds capacity_mb eviction_policy CreatedState)
  | _, _ => raise (TypeError (init_name cls))
  end.

(** [config[key]] *)
Definition subscript {S} (config : gmap string pyval) (key : string) : M S pyval :=
  match config !! key with
  | Some v => mret v
  | None => raise (KeyError key)
  end.

Record ResourceFactory := { registry : gmap string resource_class }.

Module ResourceFactory.

Definition register (resource_type : string) (resource_class : resource_class)
  : M ResourceFactory unit :=
  modify (λ self, {| registry := <[resource_type := resource_class]> (registry self) |});;
  print ("Registered resource type: " +:+ resource_type).

Definition _register_defaults : M ResourceFactory unit :=
  register "AppService" AppService_class;;
  register "StorageAccount" StorageAccount_class;;
  register "CacheDB" CacheDB_class.

(** [ResourceFactory()] *)
Definition new : ResourceFactory := post (_register_defaults {| registry := ∅ |}).

Definition create_resource (self : ResourceFactory) (resource_type : string)
    (config : gmap string pyval) : M Heap loc :=
  match registry self !! resource_type with
  | None => raise (ValueError ("Unknown resource type: " +:+ resource_type))
  | Some resource_class =>
      if String.eqb resource_type "AppService" then
        id ← subscript config "id";
        name ← subscript config "name";
        runtime ← subscript config "runtime";
        region ← subscript config "region";
        replica_count ← subscript config "replica_count";
        instantiate resource_class [id; name; runtime; region; replica_count]
      else if String.eqb resource_type "StorageAccount" then
        id ← subscript config "id";
        name ← subscript config "name";
        encryption_enabled ← subscript config "encryption_enabled";
        max_size_gb ← subscript config "max_size_gb";
        instantiate resource_class [id; name; encryption_enabled; max_size_gb]
      else if String.eqb resource_type "CacheDB" then
        let eviction_policy := default (PyStr "LRU") (config !! "eviction_policy") in
        let strategy :=
          if eq_str eviction_policy "LRU" then LRUStrategy else FIFOStrategy in
        id ← subscript config "id";
        name ← subscript config "name";
        ttl_seconds ← subscript config "ttl_seconds";
        capacity_mb ← subscript config "capacity_mb";
        instantiate resource_class
          [id; name; ttl_seconds; capacity_mb; PyStrategy strategy]
      else raise (ValueError ("Cannot instantiate resource type: " +:+ resource_type))
  end.

Definition list_available_types (self : ResourceFactory) : list string :=
  (map_to_list (registry self)).*1.

End ResourceFactory.

(** ** services/user_repository.py *)

Record User := { username : string; password : string; role : string }.

(** One entry of the ["users"] list of the JSON file; [from_dict] supplies
    the role ["user"] where the entry has none. *)
Record user_data := { ud_username : string; ud_password : string; ud_role : option string }.

Global Instance User_eq_dec : EqDecision User.
Proof. solve_decision. Defined.
Global Instance user_data_eq_dec : EqDecision user_data.
Proof. solve_decision. Defined.

Definition to_dict (u : User) : user_data :=
  {| ud_username := username u; ud_password := password u; ud_role := Some (role u) |}.

Definition from_dict (data : user_data) : User :=
  {| username := ud_username data; password := ud_password data;
     role := default "user" (ud_role data) |}.

(** The files of the user stores, by path: each holds its list of users. *)
Abbreviation Files := (gmap string (list user_data)).

Record UserRepository := { filepath : string }.

Module UserRepository.

Definition _read_data (self : UserRepository) : M Files (list user_data) := λ fs,
  match fs !! filepath self with
  | Some users => (Ok users, fs, [])
  | None => (Raise (FileNotFoundError (filepath self)), fs, [])
  end.

Definition _write_data (self : UserRepository) (users : list user_data) : M Files unit :=
  modify (λ fs : Files, <[filepath self := users]> fs).

(** [create] is the answer of the operating system when a path that names
    no file is opened for writing: [None] where it creates the file, the
    error it raises where it does not ([FileNotFoundError] for an empty path
    and for a path whose directory does not exist, as [data/users.json] in
    a checkout that has no [data] directory; [OSError] with the name of its
    class for the others, as [PermissionError]).  A file that is there is
    not opened. *)
Definition _ensure_file_exists (create : string → option exn) (self : UserRepository)
  : M Files unit := λ fs,
  match fs !! filepath self with
  | Some _ => (Ok (), fs, [])
  | None =>
      match create (filepath self) with
      | Some e => (Raise e, fs, [])
      | None => _write_data self [] fs
      end
  end.

(** [UserRepository(filepath)] *)
Definition new (create : string → option exn) (path : string) : M Files UserRepository :=
  let self := {| filepath := path |} in
  _ensure_file_exists create self;; mret self.

Definition add_user (self : UserRepository) (user : User) : M Files bool :=
  users ← _read_data self;
  if existsb (λ u, String.eqb (ud_username u) (username user)) users
  then mret false
  else _write_data self (users ++ [to_dict user]);; mret true.

Definition find_by_username (self : UserRepository) (name : string)
  : M Files (option User) :=
  users ← _read_data self;
  mret (from_dict <$> List.find (λ u, String.eqb (ud_username u) name) users).

Definition get_all_users (self : UserRepository) : M Files (list User) :=
  users ← _read_data self;
  mret (from_dict <$> users).

Fixpoint replace_first (user : User) (users : list user_data) : option (list user_data) :=
  match users with
  | [] => None
  | u :: rest =>
      if String.eqb (ud_username u) (username user) then Some (to_dict user :: rest)
      else cons u <$> replace_first user rest
  end.

Definition update_user (self : UserRepository) (user : User) : M Files bool :=
  users ← _read_data self;
  match replace_first user users with
  | Some users' => _write_data self users';; mret true
  | None => mret false
  end.

Definition delete_user (self : UserRepository) (name : string) : M Files bool :=
  users ← _read_data self;
  let kept := List.filter (λ u, negb (String.eqb (ud_username u) name)) users in
  if (length kept <? length users)%nat
  then _write_data self kept;; mret true
  else mret false.

End UserRepository.

(** ** services/login_service.py *)

Inductive LoginService :=
| FileLogin (repository : UserRepository)
| ServiceLogin (service_url api_key : string).

Module LoginService.

Definition authenticate (self : LoginService) (name pass : string) : M Files bool :=
  match self with
  | FileLogin repository =>
      user ← UserRepository.find_by_username repository name;
      match user with
      | None =>
          print ("[FileLogin] User '" +:+ name +:+ "' not found");; mret false
      | Some user =>
          if String.eqb (password user) pass
          then print ("[FileLogin] User '" +:+ name +:+ "' authenticated successfully");;
               mret true
          else print ("[FileLogin] Invalid password for user '" +:+ name +:+ "'");;
               mret false
      end
  | ServiceLogin service_url api_key =>
      print ("[ServiceLogin] Connecting to " +:+ service_url);;
      print ("[ServiceLogin] Authenticating user '" +:+ name +:+ "' with API key");;
      if negb (String.eqb name "") && negb (String.eqb pass "")
      then print ("[ServiceLogin] User '" +:+ name
                  +:+ "' authenticated via external service");;
           mret true
      else print ("[ServiceLogin] Authentication failed for user '" +:+ name +:+ "'");;
           mret false
  end.

Definition get_service_name (self : LoginService) : string :=
  match self with
  | FileLogin _ => "File-Based Authentication"
  | ServiceLogin service_url _ => "Service Authentication (" +:+ service_url +:+ ")"
  end.

End LoginService.

(** ** services/resource_manager.py *)

Record ResourceManager := {
  user_repository : UserRepository;
  login_service : LoginService;
  factory : ResourceFactory;
  resources : gmap string loc;
  next_id : Z;
  current_user : option User
}.

(** What a Manager method can read and change: the Manager's own
    attributes, the objects on the heap and the files of the user stores. *)
Record System := { manager : ResourceManager; heap : Heap; files : Files }.

Definition in_heap {A} (m : M Heap A) : M System A := λ s,
  let '(r, h, o) := m (heap s) in
  (r, {| manager := manager s; heap := h; files := files s |}, o).

Definition in_files {A} (m : M Files A) : M System A := λ s,
  let '(r, fs, o) := m (files s) in
  (r, {| manager := manager s; heap := heap s; files := fs |}, o).

Definition this : M System ResourceManager := λ s, (Ok (manager s), s, []).

Definition assign (f : ResourceManager → ResourceManager) : M System unit :=
  modify (λ s, {| manager := f (manager s); heap := heap s; files := files s |}).

Definition set_current_user (u : option User) (m : ResourceManager) : ResourceManager :=
  {| user_repository := user_repository m; login_service := login_service m;
     factory := factory m; resources := resources m; next_id := next_id m;
     current_user := u |}.

Definition set_resources (r : gmap string loc) (m : ResourceManager) : ResourceManager :=
  {| user_repository := user_repository m; login_service := login_service m;
     factory := factory m; resources := r; next_id := next_id m;
     current_user := current_user m |}.

Definition set_next_id (n : Z) (m : ResourceManager) : ResourceManager :=
  {| user_repository := user_repository m; login_service := login_service m;
     factory := factory m; resources := resources m; next_id := n;
     current_user := current_user m |}.

Module ResourceManager.

(** [ResourceManager(user_repository, login_service)] *)
Definition new (user_repository : UserRepository) (login_service : LoginService)
  : ResourceManager :=
  {| user_repository := user_repository; login_service := login_service;
     factory := ResourceFactory.new; resources := ∅; next_id := 1;
     current_user := None |}.

Definition login (name pass : string) : M System bool :=
  self ← this;
  ok ← in_files (LoginService.authenticate (login_service self) name pass);
  if ok : bool then
    found ← in_files (UserRepository.find_by_username (user_repository self) name);
    assign (set_current_user found);;
    match found with
    | None =>
        print ("Warning: User '" +:+ name
               +:+ "' authenticated but not found in repository");;
        mret false
    | Some user =>
        print ("Welcome, " +:+ username user +:+ " (" +:+ role user +:+ ")");;
        mret true
    end
  else mret false.

Definition logout : M System unit :=
  self ← this;
  match current_user self with
  | Some user =>
      print ("User '" +:+ username user +:+ "' logged out");;
      assign (set_current_user None)
  | None => print "No user is currently logged in"
  end.

Definition is_authenticated : M System bool :=
  self ← this;
  mret (bool_decide (current_user self ≠ None)).

Definition register_user (name pass role : string) : M System bool :=
  self ← this;
  let user := {| username := name; password := pass; role := role |} in
  added ← in_files (UserRepository.add_user (user_repository self) user);
  if added : bool
  then print ("User '" +:+ name +:+ "' registered successfully");; mret true
  else print ("User '" +:+ name +:+ "' already exists");; mret false.

Definition create_resource (resource_type : string) (config : gmap string pyval)
    (enable_logging : bool) : M System (option string) :=
  authenticated ← is_authenticated;
  if negb authenticated then
    print "Error: You must be logged in to create resources";; mret None
  else
    self ← this;
    let config := <["id" := PyStr (pretty (next_id self))]> config in
    resource ← in_heap (ResourceFactory.create_resource (factory self) resource_type config);
    resource ← (if enable_logging then in_heap (LoggingDecorator.new resource)
                else mret resource);
    let resource_id := pretty (next_id self) in
    assign (set_resources (<[resource_id := resource]> (resources self)));;
    assign (set_next_id (next_id self + 1)%Z);;
    match current_user self with
    | Some user =>
        print ("Resource created with ID: " +:+ resource_id +:+ " by user: "
               +:+ username user)
    | None => stuck
    end;;
    mret (Some resource_id).

Definition get_resource (resource_id : string) : M System (option loc) :=
  self ← this;
  mret (resources self !! resource_id).

Definition list_resources : M System (gmap string loc) :=
  authenticated ← is_authenticated;
  if negb authenticated then
    print "Error: You must be logged in to list resources";; mret ∅
  else
    self ← this; mret (resources self).

(** [start_resource], [stop_resource] and [delete_resource] differ in the
    method they call and in one word of a message. *)
Definition operate (op : operation) (resource_id : string) : M System bool :=
  authenticated ← is_authenticated;
  if negb authenticated then
    print ("Error: You must be logged in to " +:+ verb op +:+ " resources");;
    mret false
  else
    resource ← get_resource resource_id;
    match resource with
    | Some resource => in_heap (CloudResource.call op resource);; mret true
    | None => print ("Resource " +:+ resource_id +:+ " not found");; mret false
    end.

Definition start_resource : string → M System bool := operate Start.
Definition stop_resource : string → M System bool := operate Stop.
Definition delete_resource : string → M System bool := operate Delete.

Definition get_resource_details (resource_id : string) : M System (option string) :=
  authenticated ← is_authenticated;
  if negb authenticated then
    print "Error: You must be logged in to view resource details";; mret None
  else
    resource ← get_resource resource_id;
    match resource with
    | Some resource =>
        details ← in_heap (CloudResource.get_details resource); mret (Some details)
    | None => print ("Resource " +:+ resource_id +:+ " not found");; mret None
    end.

End ResourceManager.

(** The public methods of the Manager as a caller may invoke them. *)
Inductive request :=
| Login (name pass : string)
| Logout
| IsAuthenticated
| RegisterUser (name pass role : string)
| CreateResource (resource_type : string) (config : gmap string pyval) (enable_logging : bool)
| GetResource (resource_id : string)
| ListResources
| StartResource (resource_id : string)
| StopResource (resource_id : string)
| DeleteResource (resource_id : string)
| GetResourceDetails (resource_id : string).

(** The system after a request has run to its end, returned or raised. *)
Definition serve (r : request) (s : System) : System :=
  match r with
  | Login name pass => post (ResourceManager.login name pass s)
  | Logout => post (ResourceManager.logout s)
  | IsAuthenticated => post (ResourceManager.is_authenticated s)
  | RegisterUser name pass role => post (ResourceManager.register_user name pass role s)
  | CreateResource ty config lg => post (ResourceManager.create_resource ty config lg s)
  | GetResource i => post (ResourceManager.get_resource i s)
  | ListResources => post (ResourceManager.list_resources s)
  | StartResource i => post (ResourceManager.start_resource i s)
  | StopResource i => post (ResourceManager.stop_resource i s)
  | DeleteResource i => post (ResourceManager.delete_resource i s)
  | GetResourceDetails i => post (ResourceManager.get_resource_details i s)
  end.

Definition serve_all (rs : list request) (s : System) : System :=
  foldl (λ s r, serve r s) s rs.

(** A new Manager in a process that holds no resource yet. *)
Definition boot (repo : UserRepository) (svc : LoginService) (fs : Files) : System :=
  {| manager := ResourceManager.new repo svc; heap := []; files := fs |}.

(** The states a Manager can be in after any sequence of requests. *)
Definition reachable (s : System) : Prop :=
  ∃ repo svc fs rs, s = serve_all rs (boot repo svc fs).

(** What one request hands out: for a [create_resource] that returned an
    identifier, that identifier and what the collection holds under it when
    the call returns. *)
Definition issued_by (r : request) (s : System) : list (string * option loc) :=
  match r with
  | CreateResource ty config lg =>
      let run := ResourceManager.create_resource ty config lg s in
      match outcome run with
      | Ok (Some resource_id) =>
          [(resource_id, resources (manager (post run)) !! resource_id)]
      | _ => []
      end
  | _ => []
  end.

(** The identifiers handed out while the requests [rs] are served from [s],
    in the order of the calls. *)
Fixpoint issued (rs : list request) (s : System) : list (string * option loc) :=
  match rs with
  | [] => []
  | r :: rest => issued_by r s ++ issued rest (serve r s)
  end.

(** From one heap to a later one: nothing is freed, every reference still
    leads to the plain resource it led to, and an object differs from what
    it was in its [current_state] at most. *)
Definition heap_extends (h h' : Heap) : Prop :=
  (length h ≤ length h')%nat
  ∧ (∀ l b k, delegates h l b k → delegates h' l b k)
  ∧ (∀ l o, h !! l = Some o → ∃ st, h' !! l = Some (assign_current_state st o)).

(** What holds of the collection and the counter in every state of a
    Manager: the keys of the collection are the decimal numerals of the
    numbers below the counter, and each stored reference leads through
    decorators to a plain resource. *)
Record consistent (s : System) : Prop := {
  counter_positive : (1 ≤ next_id (manager s))%Z;
  keys_issued id :
    is_Some (resources (manager s) !! id) →
    ∃ n : Z, (1 ≤ n < next_id (manager s))%Z ∧ id = pretty n;
  handles_resolve id l :
    resources (manager s) !! id = Some l →
    ∃ b k, delegates (heap s) l b k ∧ k < length (heap s)
}.

(** ** Further methods of the same files *)

(** [self.set_state(state)] with the method chosen by the class of the
    receiver: [CloudResource.set_state] assigns the attribute,
    [ResourceDecorator.set_state] asks the wrapped object. *)
Fixpoint set_state_at (fuel : nat) (self : loc) (state : ResourceState) : M Heap unit :=
  match fuel with
  | O => stuck
  | S fuel' =>
      o ← load self;
      match o with
      | LoggingDecorator wrapped_resource _ _ _ =>
          set_state_at fuel' wrapped_resource state
      | _ => CloudResource_set_state self state
      end
  end.

Module ResourceDecorator.

Definition set_state (self : loc) (state : ResourceState) : M Heap unit :=
  λ h, set_state_at (length h) self state h.

End ResourceDecorator.

(** The state after [op] by the table: the tabled state, or the same state
    where the table says "fails". *)
Definition after (st : ResourceState) (op : operation) : ResourceState :=
  default st (transition st op).

(** The lines [LoggingDecorator] writes around a call. *)
Definition log_attempt (op : operation) (name : pyval) : line :=
  Log ("Attempting to " +:+ verb op +:+ " resource: " +:+ py_str name).

Definition log_result (op : operation) (name : pyval) (r : result unit) : list line :=
  match r with
  | Ok _ => [Log ("Successfully " +:+ verb_past op +:+ " resource: " +:+ py_str name)]
  | Raise e =>
      [Log ("Failed to " +:+ verb op +:+ " resource: " +:+ py_str name
            +:+ " - " +:+ exn_str e)]
  | Stuck => []
  end.

(** The [name] attributes of the decorators that a call on [l] passes
    through, the outermost first. *)
Fixpoint decorator_names (fuel : nat) (h : Heap) (l : loc) : list pyval :=
  match fuel with
  | O => []
  | S fuel' =>
      match h !! l with
      | Some (LoggingDecorator wrapped_resource _ name _) =>
          name :: decorator_names fuel' h wrapped_resource
      | _ => []
      end
  end.

(** The keys that [ResourceFactory.create_resource] subscripts in the
    configuration for each built-in type, [id] apart, which the Manager
    sets itself. *)
Definition required_fields (resource_type : string) : option (list string) :=
  if String.eqb resource_type "AppService" then
    Some ["name"; "runtime"; "region"; "replica_count"]
  else if String.eqb resource_type "StorageAccount" then
    Some ["name"; "encryption_enabled"; "max_size_gb"]
  else if String.eqb resource_type "CacheDB" then
    Some ["name"; "ttl_seconds"; "capacity_mb"]
  else None.

(** An instance of a class of the program, whose text in an f-string ends
    in its address. *)
Definition is_instance (v : pyval) : bool :=
  match v with PyStrategy _ => true | _ => false end.

(** ** The recursion limit of the interpreter

    Every call of a function written in Python pushes a frame, and the
    interpreter raises [RecursionError] at a call that would take its
    recursion counter beyond the limit (1000 unless the program changes
    it).  [frames] is what is left of the counter where a call is made.
    What a call of a built-in function takes of the counter while it runs
    depends on the interpreter: nothing where the limit applies to the
    frames of Python functions only (CPython from 3.12), a few levels where
    calls made from C code are counted as well (CPython 3.11).  An
    [Interpreter] gives these numbers for the built-ins that the methods
    call.  The message of the [RecursionError], which on some interpreters
    goes on to say what was being called, is kept to its first words.

    The methods below are [call_at], [get_state_at] and [get_details_at]
    again, as the source has them, with the counter. *)

Record Interpreter := {
  format_levels : pyval → nat;   (* a value in a placeholder of an f-string *)
  str_levels : exn → nat;        (* [str(e)] *)
  clock_levels : nat;            (* [datetime.now().strftime(...)] *)
  print_levels : nat;            (* [print(...)] *)
  construct_levels : nat         (* calling a state class or [ValueError] *)
}.

(** The interpreter that counts the frames of Python functions only. *)
Definition frames_only : Interpreter :=
  {| format_levels := λ _, 0; str_levels := λ _, 0; clock_levels := 0;
     print_levels := 0; construct_levels := 0 |}.

(** No built-in that the methods call takes more than [c] levels. *)
Definition within_levels (I : Interpreter) (c : nat) : Prop :=
  (∀ v, format_levels I v ≤ c)%nat ∧ (∀ e, str_levels I e ≤ c)%nat
  ∧ (clock_levels I ≤ c)%nat ∧ (print_levels I ≤ c)%nat
  ∧ (construct_levels I ≤ c)%nat.

Definition recursion_error : exn :=
  RecursionError "maximum recursion depth exceeded".

(** A built-in that takes [levels] of the counter, called where [frames]
    are left. *)
Definition builtin {S} (levels frames : nat) : M S unit :=
  if (levels <=? frames)%nat then mret () else raise recursion_error.

Fixpoint builtins {S} (levels : list nat) (frames : nat) : M S unit :=
  match levels with
  | [] => mret ()
  | l :: levels => builtin l frames;; builtins levels frames
  end.

Section Within.

Variable I : Interpreter.

(** [self._log(message)] *)
Definition _log_within {S} (frames : nat) (message : string) : M S unit :=
  match frames with
  | O => raise recursion_error
  | S frames =>
      builtin (clock_levels I) frames;;
      builtin (print_levels I) frames;;
      _log message
  end.

(** [resource.set_state(state)] on a plain resource. *)
Definition set_state_within (frames : nat) (resource : loc) (state : ResourceState)
  : M Heap unit :=
  match frames with
  | O => raise recursion_error
  | S _ => CloudResource_set_state resource state
  end.

(** The bodies of the methods of the state classes, with [frames] left
    inside the method. *)
Definition ResourceState_start_within (frames : nat) (st : ResourceState) (resource : loc)
  : M Heap unit :=
  match st with
  | CreatedState =>
      o ← load resource;
      builtin (format_levels I (attr_name o)) frames;;
      builtin (print_levels I) frames;;
      print ("Starting " +:+ py_str (attr_name o) +:+ "...");;
      builtin (construct_levels I) frames;;
      set_state_within frames resource RunningState
  | RunningState =>
      builtin (construct_levels I) frames;;
      raise (ValueError "Resource is already running")
  | StoppedState =>
      o ← load resource;
      builtin (format_levels I (attr_name o)) frames;;
      builtin (print_levels I) frames;;
      print ("Restarting " +:+ py_str (attr_name o) +:+ "...");;
      builtin (construct_levels I) frames;;
      set_state_within frames resource RunningState
  | DeletedState =>
      builtin (construct_levels I) frames;;
      raise (ValueError "Cannot start a deleted resource")
  end.

Definition ResourceState_stop_within (frames : nat) (st : ResourceState) (resource : loc)
  : M Heap unit :=
  match st with
  | CreatedState =>
      builtin (construct_levels I) frames;;
      raise (ValueError "Cannot stop a resource that hasn't been started")
  | RunningState =>
      o ← load resource;
      builtin (format_levels I (attr_name o)) frames;;
      builtin (print_levels I) frames;;
      print ("Stopping " +:+ py_str (attr_name o) +:+ "...");;
      builtin (construct_levels I) frames;;
      set_state_within frames resource StoppedState
  | StoppedState =>
      builtin (construct_levels I) frames;;
      raise (ValueError "Resource is already stopped")
  | DeletedState =>
      builtin (construct_levels I) frames;;
      raise (ValueError "Cannot stop a deleted resource")
  end.

Definition ResourceState_delete_within (frames : nat) (st : ResourceState) (resource : loc)
  : M Heap unit :=
  match st with
  | CreatedState =>
      o ← load resource;
      builtin (format_levels I (attr_name o)) frames;;
      builtin (print_levels I) frames;;
      print ("Deleting " +:+ py_str (attr_name o) +:+ "...");;
      builtin (construct_levels I) frames;;
      set_state_within frames resource DeletedState
  | RunningState =>
      builtin (construct_levels I) frames;;
      raise (ValueError "Cannot delete a running resource. Stop it first")
  | StoppedState =>
      o ← load resource;
      builtin (format_levels I (attr_name o)) frames;;
      builtin (print_levels I) frames;;
      print ("Deleting " +:+ py_str (attr_name o) +:+ "...");;
      builtin (construct_levels I) frames;;
      set_state_within frames resource DeletedState
  | DeletedState =>
      builtin (construct_levels I) frames;;
      raise (ValueError "Resource is already deleted")
  end.

Definition ResourceState_apply_within (frames : nat) (op : operation)
  : ResourceState → loc → M Heap unit :=
  match op with
  | Start => ResourceState_start_within frames
  | Stop => ResourceState_stop_within frames
  | Delete => ResourceState_delete_within frames
  end.

(** [self.start()], [self.stop()], [self.delete()] called where [frames]
    are left: the call pushes one; a decorator then formats its name, calls
    [_log] and the wrapped object, a resource calls its state, which calls
    [set_state]. *)
Fixpoint call_within (frames : nat) (op : operation) (self : loc) : M Heap unit :=
  match frames with
  | O => raise recursion_error
  | S frames =>
      o ← load self;
      match o with
      | LoggingDecorator wrapped_resource _ name _ =>
          builtin (format_levels I name) frames;;
          _log_within frames
            ("Attempting to " +:+ verb op +:+ " resource: " +:+ py_str name);;
          try_except
            (call_within frames op wrapped_resource;;
             builtin (format_levels I name) frames;;
             _log_within frames
               ("Successfully " +:+ verb_past op +:+ " resource: " +:+ py_str name))
            (λ e,
               builtin (format_levels I name) frames;;
               builtin (str_levels I e) frames;;
               _log_within frames
                 ("Failed to " +:+ verb op +:+ " resource: " +:+ py_str name
                  +:+ " - " +:+ exn_str e);;
               raise e)
      | _ =>
          match frames with
          | O => raise recursion_error
          | S frames => ResourceState_apply_within frames op (attr_current_state o) self
          end
      end
  end.

(** [self.get_state()]: a decorator asks the wrapped object, a resource
    calls [get_state_name] of its state. *)
Fixpoint get_state_within (frames : nat) (self : loc) : M Heap string :=
  match frames with
  | O => raise recursion_error
  | S frames =>
      o ← load self;
      match o with
      | LoggingDecorator wrapped_resource _ _ _ => get_state_within frames wrapped_resource
      | _ =>
          match frames with
          | O => raise recursion_error
          | S _ => mret (get_state_name (attr_current_state o))
          end
      end
  end.

(** The values that [get_details] of a resource formats, in the order of
    its f-string; the state, the text for [encryption_enabled] and the
    name of the class of the strategy are strings already. *)
Definition formatted (o : object) : list pyval :=
  match o with
  | AppService id name runtime region replica_count _ =>
      [id; name; runtime; region; replica_count]
  | StorageAccount id name _ max_size_gb _ => [id; name; max_size_gb]
  | CacheDB id name ttl_seconds capacity_mb _ _ => [id; name; ttl_seconds; capacity_mb]
  | LoggingDecorator _ _ _ _ => []
  end.

(** [self.get_details()]: a decorator asks the wrapped object, a resource
    formats its attributes and calls its own [get_state], which calls
    [get_state_name]; the text is that of [get_details_at].  Whichever of
    them runs out of the counter, the call raises [RecursionError] and
    nothing else has happened, so the placeholders are taken together. *)
Fixpoint get_details_within (frames : nat) (self : loc) : M Heap string :=
  match frames with
  | O => raise recursion_error
  | S frames =>
      o ← load self;
      match o with
      | LoggingDecorator wrapped_resource _ _ _ =>
          get_details_within frames wrapped_resource
      | _ =>
          builtins (format_levels I <$> formatted o) frames;;
          get_state_within frames self;;
          get_details_at 1 self
      end
  end.

End Within.

(** ** cli/main_with_auth.py: what does not wait for input

    The module as it runs as a script: its [__main__] block imports [User]
    before it builds the application.  Imported from another module that
    block does not run, and [User] is unbound where
    [_initialize_default_users] would build the default users. *)

Definition set_login_service (svc : LoginService) (m : ResourceManager) : ResourceManager :=
  {| user_repository := user_repository m; login_service := svc;
     factory := factory m; resources := resources m; next_id := next_id m;
     current_user := current_user m |}.

Module CloudResourceManagerApp.

Definition _initialize_default_users (user_repo : UserRepository) : M Files unit :=
  users ← UserRepository.get_all_users user_repo;
  match users with
  | [] =>
      print "Initializing default users...";;
      UserRepository.add_user user_repo
        {| username := "admin"; password := "admin123"; role := "admin" |};;
      UserRepository.add_user user_repo
        {| username := "user"; password := "user123"; role := "user" |};;
      print "Default users created: admin/admin123, user/user123"
  | _ :: _ => mret ()
  end.

(** [CloudResourceManagerApp()]: the repository over [data/users.json], the
    file-based login over it, the Manager over both, and the default users
    where the store has none. *)
Definition new (create : string → option exn) : M Files ResourceManager :=
  user_repo ← UserRepository.new create "data/users.json";
  let file_login := FileLogin user_repo in
  let manager := ResourceManager.new user_repo file_login in
  (λ fs, (Ok (), fs, output (ResourceFactory._register_defaults {| registry := ∅ |})));;
  _initialize_default_users user_repo;;
  mret manager.

Definition switch_to_service_login : M System unit :=
  print (nl +:+ "Switching to Service Login...");;
  let service_login := ServiceLogin "https://auth.example.com" "demo-api-key-12345" in
  assign (set_login_service service_login);;
  print ("Now using: " +:+ LoginService.get_service_name service_login);;
  print "Note: Service login is in demo mode and will authenticate any non-empty credentials".

End CloudResourceManagerApp.

(** * Proofs *)

(** ** The monad *)

Ltac unfold_monad :=
  unfold mbind, M_bind, mret, M_ret, this, in_files, in_heap, assign, modify,
    print, raise, stuck.

Lemma run_bind {S A B} (m : M S A) (f : A → M S B) s :
  (m ≫= f) s =
  match m s with
  | (Ok a, s1, o1) => let '(r, s2, o2) := f a s1 in (r, s2, o1 ++ o2)
  | (Raise e, s1, o1) => (Raise e, s1, o1)
  | (Stuck, s1, o1) => (Stuck, s1, o1)
  end.
Proof. reflexivity. Qed.

Lemma run_bind_silent {S A B} (m : M S A) (f : A → M S B) s a :
  m s = (Ok a, s, []) → (m ≫= f) s = f a s.
Proof. intros Hm. rewrite run_bind, Hm. by destruct (f a s) as [[r s2] o2]. Qed.

Lemma run_load h l o {B} (f : object → M Heap B) :
  h !! l = Some o → (load l ≫= f) h = f o h.
Proof. intros Hl. apply run_bind_silent. unfold load. by rewrite Hl. Qed.

Lemma run_load_None h l {B} (f : object → M Heap B) :
  h !! l = None → (load l ≫= f) h = (Stuck, h, []).
Proof. intros Hl. rewrite run_bind. unfold load. by rewrite Hl. Qed.

Lemma triple_eta {S A} (x : result A * S * list line) :
  x = (outcome x, post x, output x).
Proof. by destruct x as [[r s] o]. Qed.

(** ** The state classes against the transition table *)

Lemma get_state_name_inj st1 st2 :
  get_state_name st1 = get_state_name st2 → st1 = st2.
Proof. by destruct st1, st2. Qed.

Lemma is_decorator_assign st o :
  is_decorator (assign_current_state st o) = is_decorator o.
Proof. by destruct o. Qed.

Lemma attr_current_state_assign st o :
  attr_current_state (assign_current_state st o) = st.
Proof. by destruct o. Qed.

Lemma assign_current_state_id o :
  assign_current_state (attr_current_state o) o = o.
Proof. by destruct o. Qed.

(** What a state object does with an operation, read off the table. *)
Lemma apply_by_table op l h o :
  h !! l = Some o →
  ResourceState_apply op (attr_current_state o) l h =
  match transition (attr_current_state o) op with
  | Some st' =>
      (Ok (), <[l := assign_current_state st' o]> h,
       [Print (announce (attr_current_state o) op (attr_name o))])
  | None => (Raise (ValueError (refusal (attr_current_state o) op)), h, [])
  end.
Proof.
  intros Hl.
  destruct (attr_current_state o), op; simpl; try reflexivity;
    rewrite (run_load _ _ _ _ Hl); unfold CloudResource_set_state;
    rewrite run_bind; simpl; rewrite (run_load _ _ _ _ Hl); reflexivity.
Qed.

Lemma call_at_plain fuel op l h o :
  h !! l = Some o → is_decorator o = false →
  call_at (S fuel) op l h = ResourceState_apply op (attr_current_state o) l h.
Proof.
  intros Hl Hd. simpl. rewrite (run_load _ _ _ _ Hl). by destruct o.
Qed.

(** A decorator passes the outcome and the heap of the wrapped call on. *)
Lemma call_at_decorator fuel op l h w i n st :
  h !! l = Some (LoggingDecorator w i n st) →
  ∃ out, call_at (S fuel) op l h =
         (outcome (call_at fuel op w h), post (call_at fuel op w h), out).
Proof.
  intros Hl. simpl. rewrite (run_load _ _ _ _ Hl).
  rewrite run_bind. simpl. unfold try_except. rewrite run_bind.
  destruct (call_at fuel op w h) as [[[[]|e|] h'] o']; simpl; eauto.
Qed.

Lemma call_at_delegates h l b k :
  delegates h l b k →
  ∀ fuel op, k < fuel →
    ∃ out, call_at fuel op l h =
           (outcome (call_at 1 op b h), post (call_at 1 op b h), out).
Proof.
  induction 1 as [l o Hl Hd | l w i n st b k Hl Hw IH]; intros [|fuel] op Hk; try lia.
  - exists (output (call_at 1 op l h)).
    rewrite (call_at_plain fuel _ _ _ _ Hl Hd), (call_at_plain 0 _ _ _ _ Hl Hd).
    apply triple_eta.
  - destruct (call_at_decorator fuel op l h w i n st Hl) as [out ->].
    destruct (IH fuel op ltac:(lia)) as [out' ->]. eauto.
Qed.

Lemma delegates_plain h l b k :
  delegates h l b k → ∃ o, h !! b = Some o ∧ is_decorator o = false.
Proof. induction 1; eauto. Qed.

(** Replacing a plain resource by a plain resource keeps every chain. *)
Lemma delegates_insert h l b k p o' :
  delegates h l b k →
  (∃ o, h !! p = Some o ∧ is_decorator o = false) → is_decorator o' = false →
  delegates (<[p := o']> h) l b k.
Proof.
  intros H [o [Hp Hd]] Hd'.
  induction H as [l o1 Hl Hd1 | l w i n st b k Hl Hw IH].
  - destruct (decide (p = l)) as [->|Hne].
    + eapply delegates_here; [|exact Hd'].
      apply list_lookup_insert_eq. by eapply lookup_lt_Some.
    + eapply delegates_here; [|exact Hd1]. by rewrite list_lookup_insert_ne.
  - eapply delegates_next; [|exact IH].
    rewrite list_lookup_insert_ne; [done|]. intros ->. by simplify_eq/=.
Qed.

Lemma get_state_at_delegates h l b k :
  delegates h l b k →
  ∀ fuel o, k < fuel → h !! b = Some o →
    get_state_at fuel l h = (Ok (get_state_name (attr_current_state o)), h, []).
Proof.
  induction 1 as [l o Hl Hd | l w i n st b k Hl Hw IH]; intros [|fuel] o' Hk Hb; try lia.
  - simpl. rewrite (run_load _ _ _ _ Hl). assert (o' = o) as -> by congruence.
    by destruct o.
  - simpl. rewrite (run_load _ _ _ _ Hl). apply IH; [lia|done].
Qed.

Lemma get_state_at_Ok fuel :
  ∀ l h s, outcome (get_state_at fuel l h) = Ok s →
    ∃ b k o, delegates h l b k ∧ k < fuel ∧ h !! b = Some o
             ∧ s = get_state_name (attr_current_state o).
Proof.
  induction fuel as [|fuel IH]; intros l h s; [done|].
  simpl. destruct (h !! l) as [o|] eqn:Hl.
  - rewrite (run_load _ _ _ _ Hl).
    destruct (is_decorator o) eqn:Hd.
    + destruct o; try done. intros Hs.
      destruct (IH _ _ _ Hs) as (b & k & o & Hch & Hk & Hb & ->).
      exists b, (S k), o. split_and!; [by eapply delegates_next|lia|done|done].
    + intros Hs. exists l, 0, o.
      split_and!; [by eapply delegates_here|lia|done|].
      destruct o; try done; by injection Hs.
  - by rewrite (run_load_None _ _ _ Hl).
Qed.

Lemma delegates_app h ext l b k :
  delegates h l b k → delegates (h ++ ext) l b k.
Proof.
  induction 1 as [l o Hl Hd | l w i n st b k Hl Hw IH].
  - eapply delegates_here; [|exact Hd]. by apply lookup_app_l_Some.
  - eapply delegates_next; [|exact IH]. by apply lookup_app_l_Some.
Qed.

Lemma get_details_at_delegates h l b k :
  delegates h l b k →
  ∀ fuel, k < fuel → get_details_at fuel l h = get_details_at 1 b h.
Proof.
  induction 1 as [l o Hl Hd | l w i n st b k Hl Hw IH]; intros [|fuel] Hk; try lia.
  - simpl. rewrite !(run_load _ _ _ _ Hl). by destruct o.
  - simpl. rewrite (run_load _ _ _ _ Hl). apply IH. lia.
Qed.

(** ** Calls through a reference, resolved to the plain resource *)

Lemma call_resolved h l b k o op :
  delegates h l b k → k < length h → h !! b = Some o →
  ∃ out, CloudResource.call op l h =
         match transition (attr_current_state o) op with
         | Some st' => (Ok (), <[b := assign_current_state st' o]> h, out)
         | None => (Raise (ValueError (refusal (attr_current_state o) op)), h, out)
         end.
Proof.
  intros Hch Hk Hb. unfold CloudResource.call.
  destruct (call_at_delegates _ _ _ _ Hch (length h) op Hk) as [out ->].
  destruct (delegates_plain _ _ _ _ Hch) as (o' & Hb' & Hd).
  assert (o' = o) as -> by congruence.
  rewrite (call_at_plain 0 _ _ _ _ Hb Hd), (apply_by_table _ _ _ _ Hb).
  destruct (transition (attr_current_state o) op); simpl; eauto.
Qed.

Lemma get_state_resolved h l b k o :
  delegates h l b k → k < length h → h !! b = Some o →
  CloudResource.get_state l h = (Ok (get_state_name (attr_current_state o)), h, []).
Proof. intros Hch Hk Hb. by eapply get_state_at_delegates. Qed.

Lemma get_state_Ok h l s :
  outcome (CloudResource.get_state l h) = Ok s →
  ∃ b k o, delegates h l b k ∧ k < length h ∧ h !! b = Some o
           ∧ s = get_state_name (attr_current_state o).
Proof. apply get_state_at_Ok. Qed.

(** A call changes the heap, if at all, at one plain resource, and by a
    transition of the table. *)
Lemma call_at_post fuel op :
  ∀ l h,
    post (call_at fuel op l h) = h ∨
    ∃ p o st', h !! p = Some o ∧ is_decorator o = false
               ∧ transition (attr_current_state o) op = Some st'
               ∧ post (call_at fuel op l h) = <[p := assign_current_state st' o]> h.
Proof.
  induction fuel as [|fuel IH]; intros l h; [by left|].
  destruct (h !! l) as [o|] eqn:Hl.
  - destruct (is_decorator o) eqn:Hd.
    + destruct o; try done.
      edestruct call_at_decorator as [out ->]; [exact Hl|]. apply IH.
    + rewrite (call_at_plain _ _ _ _ _ Hl Hd), (apply_by_table _ _ _ _ Hl).
      destruct (transition (attr_current_state o) op) as [st'|] eqn:Ht; [|by left].
      right. by exists l, o, st'.
  - left. simpl. by rewrite (run_load_None _ _ _ Hl).
Qed.

Lemma call_post op l h :
  post (CloudResource.call op l h) = h ∨
  ∃ p o st', h !! p = Some o ∧ is_decorator o = false
             ∧ transition (attr_current_state o) op = Some st'
             ∧ post (CloudResource.call op l h) = <[p := assign_current_state st' o]> h.
Proof. apply call_at_post. Qed.

Lemma call_post_length op l h : length (post (CloudResource.call op l h)) = length h.
Proof.
  destruct (call_post op l h) as [->|(p & o & st' & _ & _ & _ & ->)]; [done|].
  apply length_insert.
Qed.

Lemma call_post_delegates op l h l' b k :
  delegates h l' b k → delegates (post (CloudResource.call op l h)) l' b k.
Proof.
  intros Hch.
  destruct (call_post op l h) as [->|(p & o & st' & Hp & Hd & _ & ->)]; [done|].
  apply delegates_insert; eauto. by rewrite is_decorator_assign.
Qed.

(** No call on any reference touches a resource that is deleted. *)
Lemma call_post_deleted op l h b o :
  h !! b = Some o → attr_current_state o = DeletedState →
  post (CloudResource.call op l h) !! b = Some o.
Proof.
  intros Hb Hst.
  destruct (call_post op l h) as [->|(p & o' & st' & Hp & Hd & Ht & ->)]; [done|].
  destruct (decide (p = b)) as [->|Hne]; [|by rewrite list_lookup_insert_ne].
  assert (o' = o) as -> by congruence. rewrite Hst in Ht. by destruct op.
Qed.

Lemma run_calls_deleted calls :
  ∀ h l b k o,
    delegates h l b k → k < length h → h !! b = Some o →
    attr_current_state o = DeletedState →
    delegates (run_calls calls h) l b k ∧ k < length (run_calls calls h)
    ∧ run_calls calls h !! b = Some o.
Proof.
  induction calls as [|[op l'] calls IH]; intros h l b k o Hch Hk Hb Hst; [done|].
  cbn [run_calls]. apply IH; [|rewrite call_post_length| |]; try done.
  - by apply call_post_delegates.
  - by apply call_post_deleted.
Qed.

(** ** Building decorators *)

Lemma new_decorator h l o :
  h !! l = Some o →
  LoggingDecorator.new l h =
  (Ok (length h),
   h ++ [LoggingDecorator l (attr_id o) (attr_name o) (attr_current_state o)], []).
Proof. intros Hl. unfold LoggingDecorator.new. by rewrite (run_load _ _ _ _ Hl). Qed.

Lemma wrap_delegates n :
  ∀ h l b k,
    delegates h l b k →
    ∃ d ext, LoggingDecorator.wrap n l h = (Ok d, h ++ ext, [])
             ∧ length ext = n ∧ delegates (h ++ ext) d b (n + k).
Proof.
  induction n as [|n IH]; intros h l b k Hch.
  - exists l, []. rewrite app_nil_r. by split_and!.
  - assert (∃ o, h !! l = Some o) as [o Hl] by (destruct Hch; eauto).
    set (x := LoggingDecorator l (attr_id o) (attr_name o) (attr_current_state o)).
    assert (delegates (h ++ [x]) (length h) b (S k)) as Hch'.
    { eapply delegates_next; [|by apply delegates_app].
      unfold x. by apply list_lookup_middle. }
    destruct (IH _ _ _ _ Hch') as (d & ext & Hw & Hlen & Hd).
    exists d, (x :: ext). simpl.
    rewrite run_bind, (new_decorator _ _ _ Hl). fold x. rewrite Hw. simpl.
    rewrite <- app_assoc in Hd |- *. simpl in Hd |- *.
    split_and!; [done|by rewrite Hlen|]. by replace (S (n + k)) with (n + S k) by lia.
Qed.

(** ** Lifecycle of a resource *)

(** C1. Every lifecycle operation follows the transition table.  For a
    reference [l] to a resource, plain or wrapped, whose state is [st]:
    where the table gives a new state for [op] in [st] (start from CREATED
    or STOPPED gives RUNNING, stop from RUNNING gives STOPPED, delete from
    CREATED or STOPPED gives DELETED) the call returns and the resource is in
    that state afterwards; everywhere else the call raises a [ValueError]
    and the heap, hence the state of the resource, is what it was. *)
Theorem lifecycle_follows_table (h : Heap) (l : loc) (st : ResourceState) (op : operation) :
  outcome (CloudResource.get_state l h) = Ok (get_state_name st) →
  match transition st op with
  | Some st' =>
      outcome (CloudResource.call op l h) = Ok ()
      ∧ outcome (CloudResource.get_state l (post (CloudResource.call op l h)))
        = Ok (get_state_name st')
  | None =>
      (∃ msg, outcome (CloudResource.call op l h) = Raise (ValueError msg))
      ∧ post (CloudResource.call op l h) = h
      ∧ outcome (CloudResource.get_state l (post (CloudResource.call op l h)))
        = Ok (get_state_name st)
  end.
Proof.
  intros Hst.
  destruct (get_state_Ok _ _ _ Hst) as (b & k & o & Hch & Hk & Hb & Hname).
  apply get_state_name_inj in Hname as ->.
  destruct (call_resolved _ _ _ _ _ op Hch Hk Hb) as [out Hcall].
  rewrite Hcall.
  assert (is_decorator o = false) as Hd.
  { destruct (delegates_plain _ _ _ _ Hch) as (o' & ? & ?). congruence. }
  destruct (transition (attr_current_state o) op) as [st'|]; simpl.
  - split; [done|].
    assert (b < length h) as Hlt by by eapply lookup_lt_Some.
    rewrite (get_state_resolved _ l b k (assign_current_state st' o)).
    + simpl. by rewrite attr_current_state_assign.
    + apply delegates_insert; [done|by eauto|by rewrite is_decorator_assign].
    + simpl. by rewrite length_insert.
    + simpl. by apply list_lookup_insert_eq.
  - split_and!; [eauto|done|done].
Qed.

Lemma lifecycle_follows_table_witness :
  let h := [AppService (PyStr "1") (PyStr "web") (PyStr "Python") (PyStr "eu") (PyInt 2)
              StoppedState;
            LoggingDecorator 0 (PyStr "1") (PyStr "web") CreatedState] in
  outcome (CloudResource.get_state 1 h) = Ok "STOPPED"
  ∧ outcome (CloudResource.start 1 h) = Ok ()
  ∧ outcome (CloudResource.get_state 1 (post (CloudResource.start 1 h))) = Ok "RUNNING".
Proof.
  intros h. split; [reflexivity|].
  apply (lifecycle_follows_table h 1 StoppedState Start). reflexivity.
Defined.

(** C7. DELETED is terminal.  For a reference [l] to a resource, plain or
    wrapped, whose state is DELETED, each of start, stop and delete raises
    the [ValueError] of an invalid transition and leaves the heap as it was;
    and after any sequence of lifecycle calls on any references into the
    heap the resource is still DELETED. *)
Theorem deleted_is_terminal (h : Heap) (l : loc) :
  outcome (CloudResource.get_state l h) = Ok "DELETED" →
  (∀ op, outcome (CloudResource.call op l h)
         = Raise (ValueError (refusal DeletedState op))
         ∧ post (CloudResource.call op l h) = h)
  ∧ (∀ calls, outcome (CloudResource.get_state l (run_calls calls h)) = Ok "DELETED").
Proof.
  intros Hst.
  destruct (get_state_Ok _ _ _ Hst) as (b & k & o & Hch & Hk & Hb & Hname).
  apply (get_state_name_inj DeletedState) in Hname. split.
  - intros op. destruct (call_resolved _ _ _ _ _ op Hch Hk Hb) as [out ->].
    rewrite <- Hname. by destruct op.
  - intros calls.
    destruct (run_calls_deleted calls _ _ _ _ _ Hch Hk Hb (eq_sym Hname))
      as (Hch' & Hk' & Hb').
    rewrite (get_state_resolved _ _ _ _ _ Hch' Hk' Hb'). simpl. by rewrite <- Hname.
Qed.

Lemma deleted_is_terminal_witness :
  let h := [CacheDB (PyStr "1") (PyStr "c") (PyInt 60) (PyInt 64) (PyStrategy LRUStrategy)
              DeletedState;
            LoggingDecorator 0 (PyStr "1") (PyStr "c") CreatedState] in
  outcome (CloudResource.get_state 1 h) = Ok "DELETED"
  ∧ outcome (CloudResource.start 1 h) = Raise (ValueError "Cannot start a deleted resource")
  ∧ outcome (CloudResource.get_state 1
               (run_calls [(Start, 1); (Delete, 0); (Stop, 1)] h)) = Ok "DELETED".
Proof.
  intros h.
  destruct (deleted_is_terminal h 1 eq_refl) as [Hfail Hseq].
  split; [reflexivity|]. split; [apply (Hfail Start)|apply Hseq].
Defined.

(** ** The logging decorator *)

(** Decoration with the stack left out of account: what a call through [n]
    decorators does when no limit is put on the depth of the calls. *)
Lemma transparent_without_limit (h : Heap) (l : loc) (o : object) (n : nat) (op : operation) :
  h !! l = Some o → is_decorator o = false →
  ∃ d hn,
    LoggingDecorator.wrap n l h = (Ok d, hn, [])
    ∧ outcome (CloudResource.call op d hn) = outcome (CloudResource.call op l h)
    ∧ outcome (CloudResource.call op l h) ≠ Stuck
    ∧ post (CloudResource.call op d hn) !! l = post (CloudResource.call op l h) !! l
    ∧ (∃ st, outcome (CloudResource.get_state l (post (CloudResource.call op l h)))
             = Ok (get_state_name st)
             ∧ outcome (CloudResource.get_state d (post (CloudResource.call op d hn)))
               = Ok (get_state_name st))
    ∧ outcome (CloudResource.get_state l h) = Ok (get_state_name (attr_current_state o))
    ∧ outcome (CloudResource.get_state d hn) = Ok (get_state_name (attr_current_state o))
    ∧ ∃ details, outcome (CloudResource.get_details l h) = Ok details
                 ∧ outcome (CloudResource.get_details d hn) = Ok details.
Proof.
  intros Hl Hd.
  assert (delegates h l l 0) as Hch by by eapply delegates_here.
  assert (l < length h) as Hlt by by eapply lookup_lt_Some.
  destruct (wrap_delegates n _ _ _ _ Hch) as (d & ext & Hw & Hlen & Hchn).
  rewrite Nat.add_0_r in Hchn.
  assert (n < length (h ++ ext)) as Hn by (rewrite length_app; lia).
  assert ((h ++ ext) !! l = Some o) as Hl' by by apply lookup_app_l_Some.
  exists d, (h ++ ext). split; [done|].
  destruct (call_resolved _ _ _ _ _ op Hchn Hn Hl') as [out1 Hc1].
  destruct (call_resolved _ _ _ _ _ op Hch ltac:(lia) Hl) as [out2 Hc2].
  rewrite Hc1, Hc2.
  assert (∀ h' : Heap, h' !! l = Some o →
            ∀ d' k, delegates h' d' l k → k < length h' →
            ∀ st', outcome (CloudResource.get_state d'
                              (<[l := assign_current_state st' o]> h'))
                   = Ok (get_state_name st')) as Hafter.
  { intros h' Hl0 d' k Hch' Hk st'.
    rewrite (get_state_resolved _ d' l k (assign_current_state st' o)).
    - simpl. by rewrite attr_current_state_assign.
    - apply delegates_insert; [done|by eauto|by rewrite is_decorator_assign].
    - by rewrite length_insert.
    - apply list_lookup_insert_eq. by eapply lookup_lt_Some. }
  split_and!.
  - by destruct (transition (attr_current_state o) op).
  - by destruct (transition (attr_current_state o) op).
  - destruct (transition (attr_current_state o) op); simpl; [|congruence].
    rewrite !list_lookup_insert_eq; [done|lia|rewrite length_app; lia].
  - destruct (transition (attr_current_state o) op) as [st'|]; cbn [post fst snd].
    + exists st'.
      by rewrite (Hafter _ Hl' _ _ Hchn Hn), (Hafter _ Hl _ _ Hch ltac:(lia)).
    + exists (attr_current_state o).
      by rewrite (get_state_resolved _ _ _ _ _ Hchn Hn Hl'),
        (get_state_resolved _ _ _ _ _ Hch ltac:(lia) Hl).
  - by rewrite (get_state_resolved _ _ _ _ _ Hch ltac:(lia) Hl).
  - by rewrite (get_state_resolved _ _ _ _ _ Hchn Hn Hl').
  - unfold CloudResource.get_details.
    rewrite (get_details_at_delegates _ _ _ _ Hchn _ Hn).
    rewrite (get_details_at_delegates _ _ _ _ Hch (length h) ltac:(lia)).
    simpl. rewrite (run_load _ _ _ _ Hl'), (run_load _ _ _ _ Hl).
    destruct o; try done; by eexists.
Qed.

(** ** The recursion limit *)

Lemma bind_ext {S A B} (m1 m2 : M S A) (f1 f2 : A → M S B) s :
  m1 s = m2 s →
  (∀ a s' o, m2 s = (Ok a, s', o) → f1 a s' = f2 a s') →
  (m1 ≫= f1) s = (m2 ≫= f2) s.
Proof.
  intros Hm Hf. rewrite !run_bind, Hm.
  destruct (m2 s) as [[[a|e|] s'] o] eqn:Hm2; [|done..].
  by rewrite (Hf a s' o).
Qed.

Lemma try_except_ext {S A} (b1 b2 : M S A) (h1 h2 : exn → M S A) s :
  b1 s = b2 s → (∀ e s', h1 e s' = h2 e s') →
  try_except b1 h1 s = try_except b2 h2 s.
Proof.
  intros Hb Hh. unfold try_except. rewrite Hb.
  destruct (b2 s) as [[[a|e|] s'] o]; [done| |done]. by rewrite Hh.
Qed.

Lemma builtin_run {S} levels frames (s : S) :
  (levels ≤ frames)%nat → builtin levels frames s = (Ok (), s, []).
Proof.
  intros Hle. unfold builtin. by rewrite (proj2 (Nat.leb_le _ _) Hle).
Qed.

Lemma run_builtin {S B} levels frames (k : M S B) s :
  (levels ≤ frames)%nat → (builtin levels frames;; k) s = k s.
Proof.
  intros Hle. apply (run_bind_silent _ (λ _, k) s ()). by apply builtin_run.
Qed.

Lemma builtin_cases {S} levels frames (s : S) :
  builtin levels frames s = (Ok (), s, [])
  ∨ builtin levels frames s = (Raise recursion_error, s, []).
Proof. unfold builtin. destruct (levels <=? frames)%nat; [by left|by right]. Qed.

Section Enough.

Variables (I : Interpreter) (c : nat).
Hypothesis Hlevels : within_levels I c.

Lemma log_within_run {S} frames message (s : S) :
  (1 + c ≤ frames)%nat → _log_within I frames message s = _log message s.
Proof.
  destruct Hlevels as (_ & _ & Hclock & Hprint & _).
  intros Hframes. destruct frames as [|frames]; [lia|]. unfold _log_within.
  by rewrite !run_builtin by lia.
Qed.

(** With the counter enough for the decorators, the three calls of the
    resource and the built-ins, the counted methods do what the uncounted
    ones do. *)
Lemma apply_within_enough frames op st l h o :
  h !! l = Some o → (1 + c ≤ frames)%nat →
  ResourceState_apply_within I frames op st l h = ResourceState_apply op st l h.
Proof.
  destruct Hlevels as (Hformat & _ & _ & Hprint & Hconstruct).
  intros Hl Hframes. destruct frames as [|frames]; [lia|].
  destruct st, op; cbn [ResourceState_apply_within ResourceState_apply
    ResourceState_start_within ResourceState_stop_within ResourceState_delete_within
    ResourceState_start ResourceState_stop ResourceState_delete];
    rewrite ?(run_load _ _ _ _ Hl);
    rewrite ?run_builtin by (try (etrans; [apply Hformat|]); lia);
    try done.
  all: apply bind_ext; [done|]; intros [] s' out _;
    rewrite run_builtin by lia; reflexivity.
Qed.

Lemma call_within_plain frames op l h o :
  h !! l = Some o → is_decorator o = false → (1 + c ≤ frames)%nat →
  call_within I (S (S frames)) op l h
  = ResourceState_apply op (attr_current_state o) l h.
Proof.
  intros Hl Hd Hframes. cbn [call_within]. rewrite (run_load _ _ _ _ Hl).
  destruct o; try done; by eapply apply_within_enough.
Qed.

Lemma call_within_enough h l b k :
  delegates h l b k →
  ∀ frames fuel op, (k + 3 + c ≤ frames)%nat → (k < fuel)%nat →
    call_within I frames op l h = call_at fuel op l h.
Proof.
  destruct Hlevels as (Hformat & Hstr & _).
  induction 1 as [l o Hl Hd | l w i n st b k Hl Hw IH];
    intros frames [|fuel] op Hframes Hfuel; try lia.
  - destruct frames as [|[|frames]]; try lia.
    rewrite (call_within_plain _ _ _ _ _ Hl Hd) by lia.
    by rewrite (call_at_plain _ _ _ _ _ Hl Hd).
  - destruct frames as [|frames]; try lia.
    specialize (IH frames fuel op ltac:(lia) ltac:(lia)).
    cbn [call_within call_at]. rewrite !(run_load _ _ _ _ Hl).
    rewrite run_builtin by (etrans; [apply Hformat|lia]).
    apply bind_ext; [apply log_within_run; lia|].
    intros [] s' out [= <- _].
    apply try_except_ext.
    + apply bind_ext; [exact IH|]. intros [] s' out' _.
      rewrite run_builtin by (etrans; [apply Hformat|lia]).
      apply log_within_run; lia.
    + intros e s'.
      rewrite run_builtin by (etrans; [apply Hformat|lia]).
      rewrite run_builtin by (etrans; [apply Hstr|lia]).
      apply bind_ext; [apply log_within_run; lia|done].
Qed.

Lemma get_state_within_enough h l b k :
  delegates h l b k →
  ∀ frames fuel, (k + 2 ≤ frames)%nat → (k < fuel)%nat →
    get_state_within frames l h = get_state_at fuel l h.
Proof.
  induction 1 as [l o Hl Hd | l w i n st b k Hl Hw IH];
    intros frames [|fuel] Hframes Hfuel; try lia.
  - destruct frames as [|[|frames]]; try lia. simpl.
    rewrite !(run_load _ _ _ _ Hl). by destruct o.
  - destruct frames as [|frames]; try lia. simpl.
    rewrite !(run_load _ _ _ _ Hl). apply IH; lia.
Qed.

Lemma run_builtins {S B} levels frames (k : M S B) s :
  Forall (λ l, l ≤ frames)%nat levels → (builtins levels frames;; k) s = k s.
Proof.
  intros Hall. apply (run_bind_silent _ (λ _, k) s ()).
  induction Hall as [|l levels Hl _ IH]; [done|].
  cbn [builtins]. by rewrite run_builtin.
Qed.

Lemma get_details_within_enough h l b k :
  delegates h l b k →
  ∀ frames fuel, (k + 3 + c ≤ frames)%nat → (k < fuel)%nat →
    get_details_within I frames l h = get_details_at fuel l h.
Proof.
  destruct Hlevels as (Hformat & _).
  induction 1 as [l o Hl Hd | l w i n st b k Hl Hw IH];
    intros frames [|fuel] Hframes Hfuel; try lia.
  - destruct frames as [|frames]; try lia.
    assert (get_details_at (S fuel) l h = get_details_at 1 l h) as ->.
    { simpl. rewrite !(run_load _ _ _ _ Hl). by destruct o. }
    cbn [get_details_within]. rewrite (run_load _ _ _ _ Hl).
    assert ((builtins (format_levels I <$> formatted o) frames;;
             get_state_within frames l;; get_details_at 1 l) h
            = get_details_at 1 l h) as Hbody.
    { rewrite run_builtins.
      - apply (run_bind_silent _ (λ _, get_details_at 1 l) h
                 (get_state_name (attr_current_state o))).
        rewrite (get_state_within_enough h l l 0 (delegates_here _ _ _ Hl Hd) frames 1)
          by lia.
        apply (get_state_at_delegates h l l 0 (delegates_here _ _ _ Hl Hd)); [lia|done].
      - apply Forall_fmap, Forall_forall. intros v _. simpl.
        etrans; [apply Hformat|lia]. }
    by destruct o.
  - destruct frames as [|frames]; try lia. simpl.
    rewrite !(run_load _ _ _ _ Hl). apply IH; lia.
Qed.

End Enough.

(** With no more of the counter than decorators the call ends in
    [RecursionError], whatever the state of the resource and whatever the
    built-ins take, and the heap is as it was. *)
Lemma call_within_overflow I h l b k :
  delegates h l b k →
  ∀ frames op, (frames ≤ k)%nat →
    ∃ out, call_within I frames op l h = (Raise recursion_error, h, out).
Proof.
  induction 1 as [l o Hl Hd | l w i n st b k Hl Hw IH]; intros frames op Hframes.
  - destruct frames; [by eexists|lia].
  - destruct frames as [|frames]; [by eexists|].
    cbn [call_within]. rewrite (run_load _ _ _ _ Hl).
    destruct (IH frames op ltac:(lia)) as [out Hw'].
    assert (∀ m (k : M Heap unit),
              (∃ o, k h = (Raise recursion_error, h, o)) →
              ∃ o, (_log_within I frames m;; k) h = (Raise recursion_error, h, o))
      as Hlog.
    { intros m k' [o' Hk']. destruct frames as [|frames']; [by eexists|].
      cbn [_log_within]. rewrite !run_bind.
      destruct (builtin_cases (clock_levels I) frames' h) as [->| ->];
        [|by eexists].
      cbn [outcome post output fst snd]. rewrite !run_bind.
      destruct (builtin_cases (print_levels I) frames' h) as [->| ->];
        [|by eexists].
      cbn [outcome post output fst snd]. unfold _log at 1.
      cbn [outcome post output fst snd]. rewrite Hk'. by eexists. }
    assert (∀ levels (k : M Heap unit),
              (∃ o, k h = (Raise recursion_error, h, o)) →
              ∃ o, (builtin levels frames;; k) h = (Raise recursion_error, h, o))
      as Hbuiltin.
    { intros levels k' [o' Hk']. rewrite run_bind.
      destruct (builtin_cases levels frames h) as [->| ->]; [|by eexists].
      cbn [outcome post output fst snd]. rewrite Hk'. by eexists. }
    apply Hbuiltin, Hlog. unfold try_except. rewrite run_bind, Hw'.
    cbn [outcome post output fst snd].
    destruct (Hbuiltin (format_levels I n)
                (builtin (str_levels I recursion_error) frames;;
                 _log_within I frames
                   ("Failed to " +:+ verb op +:+ " resource: " +:+ py_str n
                    +:+ " - " +:+ exn_str recursion_error);;
                 raise recursion_error)) as [o' Ho'].
    { apply Hbuiltin, Hlog. by eexists. }
    rewrite Ho'. by eexists.
Qed.




(** ** The authorization gate *)

Lemma is_authenticated_run s :
  ResourceManager.is_authenticated s
  = (Ok (bool_decide (current_user (manager s) ≠ None)), s, []).
Proof. reflexivity. Qed.

Lemma gate_closed {A} s (k : bool → M System A) :
  current_user (manager s) = None →
  (ResourceManager.is_authenticated ≫= k) s = k false s.
Proof.
  intros Hu. rewrite (run_bind_silent _ _ _ _ (is_authenticated_run s)).
  by rewrite Hu.
Qed.

Lemma gate_open {A} s u (k : bool → M System A) :
  current_user (manager s) = Some u →
  (ResourceManager.is_authenticated ≫= k) s = k true s.
Proof.
  intros Hu. rewrite (run_bind_silent _ _ _ _ (is_authenticated_run s)).
  by rewrite Hu.
Qed.

Lemma operate_closed s op i :
  current_user (manager s) = None →
  outcome (ResourceManager.operate op i s) = Ok false
  ∧ post (ResourceManager.operate op i s) = s.
Proof.
  intros Hu. unfold ResourceManager.operate. by rewrite (gate_closed _ _ Hu).
Qed.

(** C3. With no user logged in, [create_resource] and
    [get_resource_details] return [None], [list_resources] returns the empty
    dictionary, [start_resource], [stop_resource] and [delete_resource]
    return [False]; each leaves the whole system (the collection, the
    counter, every object on the heap) as it was.  In particular
    [create_resource] on a new Manager returns [None] and the collection
    stays empty. *)
Theorem gate_refuses_unauthenticated (s : System) :
  current_user (manager s) = None →
  (∀ ty config lg, outcome (ResourceManager.create_resource ty config lg s) = Ok None
                   ∧ post (ResourceManager.create_resource ty config lg s) = s)
  ∧ (outcome (ResourceManager.list_resources s) = Ok ∅
     ∧ post (ResourceManager.list_resources s) = s)
  ∧ (∀ i, outcome (ResourceManager.start_resource i s) = Ok false
          ∧ post (ResourceManager.start_resource i s) = s)
  ∧ (∀ i, outcome (ResourceManager.stop_resource i s) = Ok false
          ∧ post (ResourceManager.stop_resource i s) = s)
  ∧ (∀ i, outcome (ResourceManager.delete_resource i s) = Ok false
          ∧ post (ResourceManager.delete_resource i s) = s)
  ∧ (∀ i, outcome (ResourceManager.get_resource_details i s) = Ok None
          ∧ post (ResourceManager.get_resource_details i s) = s)
  ∧ (∀ repo svc fs ty config lg,
       let s0 := boot repo svc fs in
       outcome (ResourceManager.create_resource ty config lg s0) = Ok None
       ∧ resources (manager (post (ResourceManager.create_resource ty config lg s0))) = ∅).
Proof.
  intros Hu.
  pose proof (λ op i, operate_closed s op i Hu) as Hop.
  refine (conj _ (conj _ (conj (Hop Start) (conj (Hop Stop) (conj (Hop Delete)
            (conj _ _)))))).
  - intros ty config lg. unfold ResourceManager.create_resource.
    by rewrite (gate_closed _ _ Hu).
  - unfold ResourceManager.list_resources. by rewrite (gate_closed _ _ Hu).
  - intros i. unfold ResourceManager.get_resource_details.
    by rewrite (gate_closed _ _ Hu).
  - intros repo svc fs ty config lg s0. unfold ResourceManager.create_resource.
    by rewrite (gate_closed s0).
Qed.

Lemma gate_refuses_unauthenticated_witness :
  let repo := {| filepath := "users.json" |} in
  let s := serve_all
             [RegisterUser "alice" "pw1" "admin"; Login "alice" "pw1";
              CreateResource "StorageAccount"
                {[ "name" := PyStr "blobs"; "encryption_enabled" := PyBool true;
                   "max_size_gb" := PyInt 10 ]} true;
              Logout]
             (boot repo (FileLogin repo) {[ "users.json" := [] ]}) in
  resources (manager s) !! "1" = Some 1
  ∧ outcome (ResourceManager.start_resource "1" s) = Ok false
  ∧ post (ResourceManager.start_resource "1" s) = s.
Proof.
  intros repo s. split; [reflexivity|].
  assert (current_user (manager s) = None) as Hu by reflexivity.
  apply (gate_refuses_unauthenticated s Hu).
Defined.

(** ** The factory *)

Lemma subscript_Some {S B} (config : gmap string pyval) key v (f : pyval → M S B) s :
  config !! key = Some v → (subscript config key ≫= f) s = f v s.
Proof. intros Hk. apply run_bind_silent. unfold subscript. by rewrite Hk. Qed.

Lemma subscript_None {S B} (config : gmap string pyval) key (f : pyval → M S B) s :
  config !! key = None → (subscript config key ≫= f) s = (Raise (KeyError key), s, []).
Proof. intros Hk. rewrite run_bind. unfold subscript. by rewrite Hk. Qed.

(** The strategy the factory chooses for a configuration. *)
Lemma strategy_choice (config : gmap string pyval) :
  (if eq_str (default (PyStr "LRU") (config !! "eviction_policy")) "LRU"
   then LRUStrategy else FIFOStrategy) = LRUStrategy
  ↔ config !! "eviction_policy" = None
    ∨ config !! "eviction_policy" = Some (PyStr "LRU").
Proof.
  destruct (config !! "eviction_policy") as [v|]; simpl; [|by intuition].
  destruct v as [|b|z|s|e]; simpl; try (split; [done|by intros [|[=]]]).
  destruct (String.eqb_spec s "LRU") as [->|Hne]; [by intuition|].
  split; [done|]. intros [|[=]]; done.
Qed.

(** Counterexample to C2 as stated: a configuration without the
    eviction-policy field yields the LRU strategy, not FIFO. *)
Lemma omitted_policy_is_not_FIFO :
  ¬ (∀ (config : gmap string pyval) h l h' out i n t c s,
       ResourceFactory.create_resource ResourceFactory.new "CacheDB" config h
       = (Ok l, h', out) →
       h' !! l = Some (CacheDB i n t c (PyStrategy s) CreatedState) →
       (s = LRUStrategy ↔ config !! "eviction_policy" = Some (PyStr "LRU"))).
Proof.
  intros Hclaim.
  specialize (Hclaim
    {[ "id" := PyStr "1"; "name" := PyStr "cache"; "ttl_seconds" := PyInt 60;
       "capacity_mb" := PyInt 64 ]} [] 0
    [CacheDB (PyStr "1") (PyStr "cache") (PyInt 60) (PyInt 64)
       (PyStrategy LRUStrategy) CreatedState] []
    (PyStr "1") (PyStr "cache") (PyInt 60) (PyInt 64) LRUStrategy
    eq_refl eq_refl).
  destruct Hclaim as [Hclaim _]. specialize (Hclaim eq_refl).
  vm_compute in Hclaim. discriminate.
Qed.

(** C2, amended.  For a factory that holds the class [CacheDB] under the tag
    "CacheDB", every resource that [create_resource] builds for that tag is
    a [CacheDB] in state CREATED whose eviction strategy is LRU if and only
    if the eviction-policy field is omitted or is the exact string "LRU", and
    FIFO for every other value of the field, the lowercase "lru" among them;
    and the call does build a resource whenever the configuration has the
    fields [id], [name], [ttl_seconds] and [capacity_mb]. *)
Theorem cachedb_strategy (f : ResourceFactory) (config : gmap string pyval) (h : Heap) :
  registry f !! "CacheDB" = Some CacheDB_class →
  (∀ l h' out,
     ResourceFactory.create_resource f "CacheDB" config h = (Ok l, h', out) →
     ∃ i n t c s,
       h' !! l = Some (CacheDB i n t c (PyStrategy s) CreatedState)
       ∧ (s = LRUStrategy ↔ config !! "eviction_policy" = None
                             ∨ config !! "eviction_policy" = Some (PyStr "LRU"))
       ∧ (s = FIFOStrategy ↔ ∃ v, config !! "eviction_policy" = Some v
                                   ∧ v ≠ PyStr "LRU")
       ∧ (config !! "eviction_policy" = Some (PyStr "lru") → s = FIFOStrategy))
  ∧ (is_Some (config !! "id") → is_Some (config !! "name") →
     is_Some (config !! "ttl_seconds") → is_Some (config !! "capacity_mb") →
     ∃ l h', ResourceFactory.create_resource f "CacheDB" config h = (Ok l, h', [])).
Proof.
  intros Hreg. unfold ResourceFactory.create_resource. rewrite Hreg. simpl.
  set (s := if eq_str (default (PyStr "LRU") (config !! "eviction_policy")) "LRU"
            then LRUStrategy else FIFOStrategy).
  pose proof (strategy_choice config) as Hs. fold s in Hs.
  split.
  - intros l h' out.
    destruct (config !! "id") as [i|] eqn:Hi;
      [rewrite (subscript_Some _ _ _ _ _ Hi)|by rewrite (subscript_None _ _ _ _ Hi)].
    destruct (config !! "name") as [n|] eqn:Hn;
      [rewrite (subscript_Some _ _ _ _ _ Hn)|by rewrite (subscript_None _ _ _ _ Hn)].
    destruct (config !! "ttl_seconds") as [t|] eqn:Ht;
      [rewrite (subscript_Some _ _ _ _ _ Ht)|by rewrite (subscript_None _ _ _ _ Ht)].
    destruct (config !! "capacity_mb") as [c|] eqn:Hc;
      [rewrite (subscript_Some _ _ _ _ _ Hc)|by rewrite (subscript_None _ _ _ _ Hc)].
    unfold instantiate, alloc. intros [= <- <- <-].
    exists i, n, t, c, s. split; [by apply list_lookup_middle|].
    split; [done|]. split.
    + split.
      * intros Hfifo. destruct (config !! "eviction_policy") as [v|] eqn:Hv.
        -- exists v. split; [done|]. intros ->.
           assert (s = LRUStrategy) by (apply Hs; by right). congruence.
        -- assert (s = LRUStrategy) by (apply Hs; by left). congruence.
      * intros (v & Hv & Hne). destruct s; [|done].
        destruct Hs as [Hs _]. destruct (Hs eq_refl) as [HN|HL]; congruence.
    + intros Hlow. destruct s; [|done].
      destruct Hs as [Hs _]. destruct (Hs eq_refl) as [HN|HL]; congruence.
  - intros [i Hi] [n Hn] [t Ht] [c Hc].
    rewrite (subscript_Some _ _ _ _ _ Hi), (subscript_Some _ _ _ _ _ Hn),
      (subscript_Some _ _ _ _ _ Ht), (subscript_Some _ _ _ _ _ Hc).
    unfold instantiate, alloc. eauto.
Qed.

Lemma cachedb_strategy_witness :
  let config : gmap string pyval :=
    {[ "id" := PyStr "1"; "name" := PyStr "cache"; "ttl_seconds" := PyInt 60;
       "capacity_mb" := PyInt 64; "eviction_policy" := PyStr "lru" ]} in
  registry ResourceFactory.new !! "CacheDB" = Some CacheDB_class
  ∧ ∃ l h', ResourceFactory.create_resource ResourceFactory.new "CacheDB" config []
            = (Ok l, h', [])
            ∧ ∃ i n t c, h' !! l = Some (CacheDB i n t c (PyStrategy FIFOStrategy)
                                           CreatedState).
Proof.
  intros config.
  assert (registry ResourceFactory.new !! "CacheDB" = Some CacheDB_class) as Hreg
    by reflexivity.
  split; [exact Hreg|].
  destruct (cachedb_strategy ResourceFactory.new config [] Hreg) as [Hbuilt Hruns].
  destruct Hruns as (l & h' & Hrun); [by eexists; vm_compute..|].
  exists l, h'. split; [exact Hrun|].
  destruct (Hbuilt l h' [] Hrun) as (i & n & t & c & s & Hl & _ & _ & Hlow).
  exists i, n, t, c. by rewrite <- (Hlow eq_refl).
Defined.

(** ** The user store *)

Lemma existsb_username (name : string) (users : list user_data) :
  existsb (λ u, String.eqb (ud_username u) name) users = true
  ↔ name ∈ ud_username <$> users.
Proof.
  induction users as [|u users IH]; simpl.
  - split; [done|]. by intros ?%elem_of_nil.
  - rewrite orb_true_iff, IH, elem_of_cons, String.eqb_eq.
    split; (intros [H|H]; [left|right]); done.
Qed.

Lemma find_fresh_app (name : string) (users : list user_data) (u : user_data) :
  name ∉ ud_username <$> users → ud_username u = name →
  List.find (λ u, String.eqb (ud_username u) name) (users ++ [u]) = Some u.
Proof.
  intros Hfresh Hu. induction users as [|v users IH]; simpl.
  - by rewrite Hu, String.eqb_refl.
  - rewrite fmap_cons, not_elem_of_cons in Hfresh. destruct Hfresh as [Hv Hrest].
    destruct (String.eqb_spec (ud_username v) name); [congruence|]. by apply IH.
Qed.

Lemma from_to_dict (u : User) : from_dict (to_dict u) = u.
Proof. by destruct u. Qed.

Lemma add_user_taken repo user (fs : Files) users :
  fs !! filepath repo = Some users →
  username user ∈ ud_username <$> users →
  UserRepository.add_user repo user fs = (Ok false, fs, []).
Proof.
  intros Hfile Htaken. unfold UserRepository.add_user.
  rewrite run_bind. unfold UserRepository._read_data. rewrite Hfile.
  apply existsb_username in Htaken. by rewrite Htaken.
Qed.

Lemma add_user_fresh repo user (fs : Files) users :
  fs !! filepath repo = Some users →
  username user ∉ ud_username <$> users →
  UserRepository.add_user repo user fs
  = (Ok true, <[filepath repo := users ++ [to_dict user]]> fs, []).
Proof.
  intros Hfile Hfresh. unfold UserRepository.add_user.
  rewrite run_bind. unfold UserRepository._read_data. rewrite Hfile.
  destruct (existsb _ users) eqn:Hex; [|done].
  by apply existsb_username in Hex.
Qed.

(** [register_user] is [add_user] on the Manager's store, plus one line of
    output. *)
Lemma register_user_run s name pass role :
  ResourceManager.register_user name pass role s =
  let '(r, fs, o) :=
    UserRepository.add_user (user_repository (manager s))
      {| username := name; password := pass; role := role |} (files s) in
  let s' := {| manager := manager s; heap := heap s; files := fs |} in
  match r with
  | Ok true => (Ok true, s', o ++ [Print ("User '" +:+ name +:+ "' registered successfully")])
  | Ok false => (Ok false, s', o ++ [Print ("User '" +:+ name +:+ "' already exists")])
  | Raise e => (Raise e, s', o)
  | Stuck => (Stuck, s', o)
  end.
Proof.
  unfold ResourceManager.register_user, this, in_files, print.
  unfold mbind, M_bind, mret, M_ret.
  destruct (UserRepository.add_user _ _ _) as [[[[]|e|] fs'] o]; simpl;
    by rewrite ?app_nil_r.
Qed.

(** C8. Registration against a store that holds the list [users]: when the
    username is already there, [add_user] returns [False] and the file, and
    so the record stored for that username, is unchanged; when it is not,
    [add_user] returns [True], the file holds the old users followed by
    exactly the new record, and looking the username up finds that record.
    [register_user] of the Manager returns what [add_user] returns, does to
    the file what [add_user] does, and touches nothing else. *)
Theorem registration_refuses_duplicates
    (repo : UserRepository) (user : User) (fs : Files) (users : list user_data) :
  fs !! filepath repo = Some users →
  (username user ∈ ud_username <$> users →
     UserRepository.add_user repo user fs = (Ok false, fs, [])
     ∧ post (UserRepository.add_user repo user fs) !! filepath repo = Some users)
  ∧ (username user ∉ ud_username <$> users →
     UserRepository.add_user repo user fs
     = (Ok true, <[filepath repo := users ++ [to_dict user]]> fs, [])
     ∧ outcome (UserRepository.find_by_username repo (username user)
                  (post (UserRepository.add_user repo user fs)))
       = Ok (Some user))
  ∧ (∀ s, files s = fs → user_repository (manager s) = repo →
       outcome (ResourceManager.register_user (username user) (password user)
                  (role user) s)
       = outcome (UserRepository.add_user repo user fs)
       ∧ files (post (ResourceManager.register_user (username user) (password user)
                        (role user) s))
         = post (UserRepository.add_user repo user fs)
       ∧ manager (post (ResourceManager.register_user (username user)
                          (password user) (role user) s)) = manager s
       ∧ heap (post (ResourceManager.register_user (username user) (password user)
                       (role user) s)) = heap s).
Proof.
  intros Hfile. split_and!.
  - intros Htaken. rewrite (add_user_taken _ _ _ _ Hfile Htaken). by split.
  - intros Hfresh. rewrite (add_user_fresh _ _ _ _ Hfile Hfresh). split; [done|].
    simpl. unfold UserRepository.find_by_username, UserRepository._read_data.
    rewrite run_bind, lookup_insert_eq. simpl.
    rewrite (find_fresh_app _ _ (to_dict user)); [|done|done].
    simpl. by rewrite from_to_dict.
  - intros s <- <-. rewrite register_user_run.
    replace {| username := username user; password := password user;
               role := role user |} with user by by destruct user.
    destruct (UserRepository.add_user _ _ _) as [[[[]|e|] fs'] o]; done.
Qed.

Lemma registration_refuses_duplicates_witness :
  let repo := {| filepath := "users.json" |} in
  let alice := {| ud_username := "alice"; ud_password := "pw1"; ud_role := Some "admin" |} in
  let again := {| username := "alice"; password := "other"; role := "user" |} in
  let fs : Files := {[ "users.json" := [alice] ]} in
  fs !! filepath repo = Some [alice]
  ∧ UserRepository.add_user repo again fs = (Ok false, fs, [])
  ∧ post (UserRepository.add_user repo again fs) !! filepath repo = Some [alice].
Proof.
  intros repo alice again fs.
  assert (fs !! filepath repo = Some [alice]) as Hfile by reflexivity.
  split; [exact Hfile|].
  apply (registration_refuses_duplicates repo again fs [alice] Hfile).
  vm_compute. apply list_elem_of_here.
Defined.

(** ** Login *)

(** A login that the authentication service rejects leaves the Manager as it
    was. *)
Lemma login_rejected_keeps_session s name pass fs' out :
  LoginService.authenticate (login_service (manager s)) name pass (files s)
  = (Ok false, fs', out) →
  outcome (ResourceManager.login name pass s) = Ok false
  ∧ manager (post (ResourceManager.login name pass s)) = manager s.
Proof.
  intros Hauth. unfold ResourceManager.login, this, in_files.
  unfold mbind, M_bind. by rewrite Hauth.
Qed.

(** A failed login of a Manager with no user logged in leaves it so. *)
Lemma login_failure_when_logged_out s name pass :
  current_user (manager s) = None →
  outcome (ResourceManager.login name pass s) ≠ Ok true →
  current_user (manager (post (ResourceManager.login name pass s))) = None.
Proof.
  intros Hu. unfold ResourceManager.login. unfold_monad.
  destruct (LoginService.authenticate _ _ _ _) as [[[[]|e|] fs'] o]; simpl; try done.
  destruct (UserRepository.find_by_username _ _ _) as [[[[u|]|e|] fs''] o'];
    simpl; done.
Qed.

(** C6 fails on the code: the service accepts the credentials, the user is
    not in the store, [login] returns [False], and the user who was logged
    in before the call is logged out by it. *)
Lemma login_absent_user_drops_session :
  let repo := {| filepath := "users.json" |} in
  let s := serve_all [RegisterUser "alice" "pw1" "admin"; Login "alice" "pw1"]
             (boot repo (ServiceLogin "https://auth.example.com" "demo-api-key-12345")
                {[ "users.json" := [] ]}) in
  current_user (manager s)
  = Some {| username := "alice"; password := "pw1"; role := "admin" |}
  ∧ outcome (ResourceManager.login "ghost" "x" s) = Ok false
  ∧ current_user (manager (post (ResourceManager.login "ghost" "x" s))) = None.
Proof. vm_compute. done. Qed.

(** ** What each Manager method changes *)

Lemma system_eta s : {| manager := manager s; heap := heap s; files := files s |} = s.
Proof. by destruct s. Qed.

Lemma heap_extends_refl h : heap_extends h h.
Proof.
  split_and!; [done..|]. intros l o Hl. exists (attr_current_state o).
  by rewrite assign_current_state_id.
Qed.

Lemma heap_extends_call op l h : heap_extends h (post (CloudResource.call op l h)).
Proof.
  split_and!; [by rewrite call_post_length|intros; by apply call_post_delegates|].
  destruct (call_post op l h) as [->|(p & o' & st' & Hp & _ & _ & ->)];
    [apply heap_extends_refl|].
  intros l' o Hl'. destruct (decide (p = l')) as [->|Hne].
  - exists st'. assert (o' = o) as -> by congruence.
    apply list_lookup_insert_eq. by eapply lookup_lt_Some.
  - exists (attr_current_state o).
    by rewrite list_lookup_insert_ne, assign_current_state_id.
Qed.

Lemma heap_extends_app h ext : heap_extends h (h ++ ext).
Proof.
  split_and!; [rewrite length_app; lia|intros; by apply delegates_app|].
  intros l o Hl. exists (attr_current_state o).
  rewrite assign_current_state_id. by apply lookup_app_l_Some.
Qed.

Lemma get_details_at_post fuel : ∀ l h, post (get_details_at fuel l h) = h.
Proof.
  induction fuel as [|fuel IH]; intros l h; [done|]. simpl.
  destruct (h !! l) as [o|] eqn:Hl; [|by rewrite (run_load_None _ _ _ Hl)].
  rewrite (run_load _ _ _ _ Hl). destruct o; try done. apply IH.
Qed.

(** [login] changes nothing of the Manager but [current_user], and nothing
    of the heap. *)
Lemma login_frame name pass s :
  let s' := post (ResourceManager.login name pass s) in
  heap s' = heap s ∧ resources (manager s') = resources (manager s)
  ∧ next_id (manager s') = next_id (manager s).
Proof.
  unfold ResourceManager.login. unfold_monad.
  destruct (LoginService.authenticate _ _ _ _) as [[[[]|e|] fs'] o]; simpl; try done.
  destruct (UserRepository.find_by_username _ _ _) as [[[[u|]|e|] fs''] o'];
    simpl; done.
Qed.

Lemma logout_frame s :
  let s' := post (ResourceManager.logout s) in
  heap s' = heap s ∧ resources (manager s') = resources (manager s)
  ∧ next_id (manager s') = next_id (manager s).
Proof.
  unfold ResourceManager.logout. unfold_monad.
  destruct (current_user (manager s)); simpl; done.
Qed.

Lemma register_user_frame name pass role s :
  let s' := post (ResourceManager.register_user name pass role s) in
  heap s' = heap s ∧ manager s' = manager s.
Proof.
  rewrite register_user_run.
  destruct (UserRepository.add_user _ _ _) as [[[[]|e|] fs'] o]; done.
Qed.

(** The outcomes of the factory: one new plain resource in state CREATED
    that carries the [id] of the configuration, or an exception and the heap
    as it was. *)
Lemma factory_create_cases f ty (config : gmap string pyval) h :
  (∃ o, ResourceFactory.create_resource f ty config h = (Ok (length h), h ++ [o], [])
        ∧ is_decorator o = false ∧ config !! "id" = Some (attr_id o)
        ∧ attr_current_state o = CreatedState)
  ∨ (∃ e, ResourceFactory.create_resource f ty config h = (Raise e, h, [])).
Proof.
  unfold ResourceFactory.create_resource.
  destruct (registry f !! ty) as [cls|]; [|right; by eexists].
  destruct (String.eqb ty "AppService"); [|destruct (String.eqb ty "StorageAccount");
    [|destruct (String.eqb ty "CacheDB"); [|right; by eexists]]].
  all: destruct (config !! "id") as [i|] eqn:Hi;
    [rewrite (subscript_Some _ _ _ _ _ Hi)
    |rewrite (subscript_None _ _ _ _ Hi); right; by eexists].
  all: destruct (config !! "name") as [n|] eqn:Hn;
    [rewrite (subscript_Some _ _ _ _ _ Hn)
    |rewrite (subscript_None _ _ _ _ Hn); right; by eexists].
  - destruct (config !! "runtime") as [a|] eqn:Ha;
      [rewrite (subscript_Some _ _ _ _ _ Ha)
      |rewrite (subscript_None _ _ _ _ Ha); right; by eexists].
    destruct (config !! "region") as [b|] eqn:Hb;
      [rewrite (subscript_Some _ _ _ _ _ Hb)
      |rewrite (subscript_None _ _ _ _ Hb); right; by eexists].
    destruct (config !! "replica_count") as [c|] eqn:Hc;
      [rewrite (subscript_Some _ _ _ _ _ Hc)
      |rewrite (subscript_None _ _ _ _ Hc); right; by eexists].
    destruct cls; [left|right|left]; by eexists.
  - destruct (config !! "encryption_enabled") as [a|] eqn:Ha;
      [rewrite (subscript_Some _ _ _ _ _ Ha)
      |rewrite (subscript_None _ _ _ _ Ha); right; by eexists].
    destruct (config !! "max_size_gb") as [b|] eqn:Hb;
      [rewrite (subscript_Some _ _ _ _ _ Hb)
      |rewrite (subscript_None _ _ _ _ Hb); right; by eexists].
    destruct cls; [right|left|right]; by eexists.
  - simpl.
    destruct (config !! "ttl_seconds") as [a|] eqn:Ha;
      [rewrite (subscript_Some _ _ _ _ _ Ha)
      |rewrite (subscript_None _ _ _ _ Ha); right; by eexists].
    destruct (config !! "capacity_mb") as [b|] eqn:Hb;
      [rewrite (subscript_Some _ _ _ _ _ Hb)
      |rewrite (subscript_None _ _ _ _ Hb); right; by eexists].
    destruct cls; [left|right|left]; by eexists.
Qed.

(** [create_resource] with a user logged in: the next identifier, stored
    over a new object that carries it, and the counter advanced by one; or
    the exception of the factory and the system as it was. *)
Lemma create_resource_cases s ty config lg u :
  current_user (manager s) = Some u →
  (∃ l ext out,
     ResourceManager.create_resource ty config lg s
     = (Ok (Some (pretty (next_id (manager s)))),
        {| manager :=
             set_next_id (next_id (manager s) + 1)
               (set_resources
                  (<[pretty (next_id (manager s)) := l]> (resources (manager s)))
                  (manager s));
           heap := heap s ++ ext; files := files s |}, out)
     ∧ (∃ b k, delegates (heap s ++ ext) l b k ∧ k < length (heap s ++ ext))
     ∧ (length (heap s) ≤ l)%nat
     ∧ ∃ o, (heap s ++ ext) !! l = Some o
            ∧ attr_id o = PyStr (pretty (next_id (manager s))))
  ∨ (∃ e, ResourceManager.create_resource ty config lg s = (Raise e, s, [])).
Proof.
  intros Hu. unfold ResourceManager.create_resource.
  rewrite (gate_open _ _ _ Hu). simpl. unfold_monad. rewrite Hu.
  destruct (factory_create_cases (factory (manager s)) ty
              (<["id" := PyStr (pretty (next_id (manager s)))]> config) (heap s))
    as [(o & -> & Hd & Hid & Hst)|(e & ->)]; [|right; exists e; by rewrite system_eta].
  rewrite lookup_insert_eq in Hid. injection Hid as Hid.
  left. destruct lg; simpl.
  - rewrite (new_decorator _ _ o); [|by apply list_lookup_middle]. simpl.
    set (d := LoggingDecorator (length (heap s)) (attr_id o) (attr_name o)
                (attr_current_state o)).
    assert (length (heap s ++ [o]) = S (length (heap s))) as Hlen
      by (rewrite length_app; simpl; lia).
    assert ((heap s ++ [o; d]) !! S (length (heap s)) = Some d) as Hdl.
    { rewrite <- Hlen, (cons_middle o (heap s) [d]), app_assoc.
      by apply list_lookup_middle. }
    exists (S (length (heap s))), [o; d]. eexists.
    rewrite Hlen, <- app_assoc. simpl.
    split; [reflexivity|]. split_and!.
    + exists (length (heap s)), 1. split.
      * eapply delegates_next; [exact Hdl|].
        eapply delegates_here; [|exact Hd]. by apply list_lookup_middle.
      * rewrite length_app. simpl. lia.
    + lia.
    + exists d. by split.
  - eexists (length (heap s)), [o], _. split; [reflexivity|]. split_and!.
    + exists (length (heap s)), 0. split.
      * eapply delegates_here; [|exact Hd]. by apply list_lookup_middle.
      * rewrite length_app. simpl. lia.
    + lia.
    + exists o. split; [by apply list_lookup_middle|done].
Qed.

Lemma create_resource_closed s ty config lg :
  current_user (manager s) = None →
  ResourceManager.create_resource ty config lg s
  = (Ok None, s, [Print "Error: You must be logged in to create resources"]).
Proof.
  intros Hu. unfold ResourceManager.create_resource. by rewrite (gate_closed _ _ Hu).
Qed.

(** A lifecycle request leaves the system as it was or runs the operation on
    the stored reference. *)
Lemma operate_post op i s :
  post (ResourceManager.operate op i s) = s
  ∨ ∃ l, resources (manager s) !! i = Some l
         ∧ post (ResourceManager.operate op i s)
           = {| manager := manager s;
                heap := post (CloudResource.call op l (heap s)); files := files s |}.
Proof.
  unfold ResourceManager.operate.
  destruct (current_user (manager s)) as [u|] eqn:Hu;
    [rewrite (gate_open _ _ _ Hu)|rewrite (gate_closed _ _ Hu); by left].
  simpl. unfold ResourceManager.get_resource. unfold_monad.
  destruct (resources (manager s) !! i) as [l|] eqn:Hl; simpl; [|by left].
  right. exists l. split; [done|].
  by destruct (CloudResource.call op l (heap s)) as [[[[]|e|] h'] o].
Qed.

Lemma list_resources_post s : post (ResourceManager.list_resources s) = s.
Proof.
  unfold ResourceManager.list_resources.
  destruct (current_user (manager s)) as [u|] eqn:Hu;
    [by rewrite (gate_open _ _ _ Hu)|by rewrite (gate_closed _ _ Hu)].
Qed.

Lemma get_resource_details_post i s :
  post (ResourceManager.get_resource_details i s) = s.
Proof.
  unfold ResourceManager.get_resource_details.
  destruct (current_user (manager s)) as [u|] eqn:Hu;
    [rewrite (gate_open _ _ _ Hu)|by rewrite (gate_closed _ _ Hu)].
  simpl. unfold ResourceManager.get_resource. unfold_monad.
  destruct (resources (manager s) !! i) as [l|] eqn:Hl; simpl; [|done].
  pose proof (get_details_at_post (length (heap s)) l (heap s)) as Hpost.
  unfold CloudResource.get_details.
  destruct (get_details_at _ _ _) as [[[d|e|] h'] o]; simpl in *; subst;
    apply system_eta.
Qed.

(** One request: the heap only extends; and either the collection and the
    counter stay and no identifier is handed out, or a resource is created
    under the next identifier. *)
Lemma serve_effect r s :
  heap_extends (heap s) (heap (serve r s))
  ∧ ((resources (manager (serve r s)) = resources (manager s)
      ∧ next_id (manager (serve r s)) = next_id (manager s)
      ∧ issued_by r s = [])
     ∨ (∃ l, resources (manager (serve r s))
             = <[pretty (next_id (manager s)) := l]> (resources (manager s))
             ∧ next_id (manager (serve r s)) = (next_id (manager s) + 1)%Z
             ∧ issued_by r s = [(pretty (next_id (manager s)), Some l)]
             ∧ (∃ b k, delegates (heap (serve r s)) l b k
                       ∧ k < length (heap (serve r s)))
             ∧ (length (heap s) ≤ l)%nat
             ∧ ∃ o, heap (serve r s) !! l = Some o
                    ∧ attr_id o = PyStr (pretty (next_id (manager s))))).
Proof.
  destruct r as [name pass| | |name pass role|ty config lg|i| |i|i|i|i]; cbn [serve].
  - destruct (login_frame name pass s) as (-> & -> & ->).
    split; [apply heap_extends_refl|by left].
  - destruct (logout_frame s) as (-> & -> & ->).
    split; [apply heap_extends_refl|by left].
  - split; [apply heap_extends_refl|by left].
  - destruct (register_user_frame name pass role s) as (-> & ->).
    split; [apply heap_extends_refl|by left].
  - unfold issued_by. destruct (current_user (manager s)) as [u|] eqn:Hu.
    + destruct (create_resource_cases s ty config lg u Hu)
        as [(l & ext & out & Hrun & Hres & Hnew & Hobj)|(e & Hrun)];
        rewrite Hrun; simpl.
      * split; [apply heap_extends_app|]. right. exists l.
        rewrite lookup_insert_eq. by split_and!.
      * split; [apply heap_extends_refl|by left].
    + rewrite (create_resource_closed _ _ _ _ Hu). simpl.
      split; [apply heap_extends_refl|by left].
  - split; [apply heap_extends_refl|by left].
  - rewrite list_resources_post. split; [apply heap_extends_refl|by left].
  - destruct (operate_post Start i s) as [Hp|(l & _ & Hp)];
      unfold ResourceManager.start_resource; rewrite Hp; simpl;
      (split; [first [apply heap_extends_refl|apply heap_extends_call]|by left]).
  - destruct (operate_post Stop i s) as [Hp|(l & _ & Hp)];
      unfold ResourceManager.stop_resource; rewrite Hp; simpl;
      (split; [first [apply heap_extends_refl|apply heap_extends_call]|by left]).
  - destruct (operate_post Delete i s) as [Hp|(l & _ & Hp)];
      unfold ResourceManager.delete_resource; rewrite Hp; simpl;
      (split; [first [apply heap_extends_refl|apply heap_extends_call]|by left]).
  - rewrite get_resource_details_post. split; [apply heap_extends_refl|by left].
Qed.

(** ** Invariants of the Manager *)

Lemma serve_all_cons r rs s : serve_all (r :: rs) s = serve_all rs (serve r s).
Proof. reflexivity. Qed.

Lemma boot_consistent repo svc fs : consistent (boot repo svc fs).
Proof.
  split; simpl.
  - lia.
  - intros id [l Hl]. by rewrite lookup_empty in Hl.
  - intros id l Hl. by rewrite lookup_empty in Hl.
Qed.

Lemma serve_consistent r s : consistent s → consistent (serve r s).
Proof.
  intros [Hpos Hkeys Hres].
  destruct (serve_effect r s) as [(Hlen & Hch & _) [(Er & En & _)|(l & Er & En & _ & Hl & _)]].
  - split; rewrite ?Er, ?En; [done..|].
    intros id l' Hid. destruct (Hres _ _ Hid) as (b & k & Hd & Hk).
    exists b, k. split; [by apply Hch|lia].
  - split; rewrite ?Er, ?En.
    + lia.
    + intros id. rewrite lookup_insert.
      case_decide as Hid; [intros _; subst id|intros Hsome].
      * exists (next_id (manager s)). split; [lia|done].
      * destruct (Hkeys _ Hsome) as (n & Hn & ->). exists n. split; [lia|done].
    + intros id l'. rewrite lookup_insert.
      case_decide as Hid; [intros [= <-]; exact Hl|intros Hsome].
      destruct (Hres _ _ Hsome) as (b & k & Hd & Hk).
      exists b, k. split; [by apply Hch|lia].
Qed.

Lemma serve_all_consistent rs : ∀ s, consistent s → consistent (serve_all rs s).
Proof.
  induction rs as [|r rs IH]; intros s Hs; [done|].
  rewrite serve_all_cons. by apply IH, serve_consistent.
Qed.

Lemma reachable_consistent s : reachable s → consistent s.
Proof.
  intros (repo & svc & fs & rs & ->). apply serve_all_consistent, boot_consistent.
Qed.

(** The next identifier is under no key of the collection. *)
Lemma next_id_fresh s :
  consistent s → resources (manager s) !! pretty (next_id (manager s)) = None.
Proof.
  intros [Hpos Hkeys _].
  destruct (resources (manager s) !! pretty (next_id (manager s))) as [l|] eqn:Hl;
    [|done].
  destruct (Hkeys _ (mk_is_Some _ _ Hl)) as (n & Hn & Heq).
  apply (inj pretty) in Heq. lia.
Qed.

(** What is stored under an identifier stays there. *)
Lemma serve_keeps r s id l :
  consistent s → resources (manager s) !! id = Some l →
  resources (manager (serve r s)) !! id = Some l.
Proof.
  intros Hs Hid.
  destruct (serve_effect r s) as [_ [(-> & _)|(l' & -> & _)]]; [done|].
  rewrite lookup_insert_ne; [done|]. intros <-.
  rewrite (next_id_fresh _ Hs) in Hid. done.
Qed.

Lemma serve_all_keeps rs :
  ∀ s id l, consistent s → resources (manager s) !! id = Some l →
    resources (manager (serve_all rs s)) !! id = Some l.
Proof.
  induction rs as [|r rs IH]; intros s id l Hs Hid; [done|].
  rewrite serve_all_cons. apply IH; [by apply serve_consistent|by apply serve_keeps].
Qed.

Lemma attr_id_assign st o : attr_id (assign_current_state st o) = attr_id o.
Proof. by destruct o. Qed.

Lemma serve_all_keeps_id rs :
  ∀ s l o, heap s !! l = Some o →
    ∃ o', heap (serve_all rs s) !! l = Some o' ∧ attr_id o' = attr_id o.
Proof.
  induction rs as [|r rs IH]; intros s l o Hl; [by exists o|].
  rewrite serve_all_cons.
  destruct (serve_effect r s) as [(_ & _ & Hobj) _].
  destruct (Hobj _ _ Hl) as [st Hl'].
  destruct (IH _ _ _ Hl') as (o' & Ho' & Hid). exists o'.
  by rewrite Hid, attr_id_assign.
Qed.

(** ** Identifiers *)

Lemma issued_ids rs :
  ∀ s, (issued rs s).*1
       = pretty <$> seqZ (next_id (manager s)) (Z.of_nat (length (issued rs s)))
       ∧ next_id (manager (serve_all rs s))
         = (next_id (manager s) + Z.of_nat (length (issued rs s)))%Z.
Proof.
  induction rs as [|r rs IH]; intros s.
  - simpl. split; [done|lia].
  - rewrite serve_all_cons. cbn [issued].
    destruct (IH (serve r s)) as [IHids IHnext].
    destruct (serve_effect r s) as [_ [(_ & En & ->)|(l & _ & En & -> & _)]].
    + simpl. rewrite <- En. by split.
    + cbn [app length fmap list_fmap fst]. rewrite En in IHids, IHnext.
      rewrite seqZ_cons by lia. rewrite fmap_cons. split.
      * f_equal. rewrite IHids. f_equal. f_equal; lia.
      * lia.
Qed.

Lemma issued_stored rs :
  ∀ s, consistent s →
    ∀ id stored, (id, stored) ∈ issued rs s →
      resources (manager (serve_all rs s)) !! id = stored
      ∧ ∃ l o, stored = Some l ∧ heap (serve_all rs s) !! l = Some o
               ∧ attr_id o = PyStr id.
Proof.
  induction rs as [|r rs IH]; intros s Hs id stored Hin.
  - by apply elem_of_nil in Hin.
  - rewrite serve_all_cons. cbn [issued] in Hin. apply elem_of_app in Hin.
    destruct Hin as [Hin|Hin]; [|by apply IH; [apply serve_consistent|]].
    destruct (serve_effect r s)
      as [_ [(_ & _ & Hnone)|(l & Er & _ & Hone & _ & _ & o & Hl & Hid)]].
    + rewrite Hnone in Hin. by apply elem_of_nil in Hin.
    + rewrite Hone in Hin. apply list_elem_of_singleton in Hin. injection Hin as -> ->.
      split.
      * apply serve_all_keeps; [by apply serve_consistent|].
        rewrite Er. apply lookup_insert_eq.
      * destruct (serve_all_keeps_id rs _ _ _ Hl) as (o' & Hl' & Hid').
        exists l, o'. split_and!; [done..|]. by rewrite Hid'.
Qed.

Lemma issued_covers rs :
  ∀ s id, is_Some (resources (manager (serve_all rs s)) !! id) →
    is_Some (resources (manager s) !! id) ∨ id ∈ (issued rs s).*1.
Proof.
  induction rs as [|r rs IH]; intros s id Hid; [by left|].
  rewrite serve_all_cons in Hid. cbn [issued]. rewrite fmap_app, elem_of_app.
  destruct (IH _ _ Hid) as [Hold|Hnew]; [|by right; right].
  destruct (serve_effect r s) as [_ [(Er & _)|(l & Er & _ & -> & _)]].
  - left. by rewrite <- Er.
  - rewrite Er, lookup_insert in Hold. case_decide as Heq; [|by left].
    right. left. subst id. apply list_elem_of_here.
Qed.

(** One [create_resource]: it returns the numeral of the counter, stores a
    reference under it and advances the counter; or it returns no
    identifier and the system is as it was. *)
Lemma create_resource_outcome s ty config lg :
  let run := ResourceManager.create_resource ty config lg s in
  (∃ l, outcome run = Ok (Some (pretty (next_id (manager s))))
        ∧ resources (manager (post run))
          = <[pretty (next_id (manager s)) := l]> (resources (manager s))
        ∧ next_id (manager (post run)) = (next_id (manager s) + 1)%Z)
  ∨ ((∀ id, outcome run ≠ Ok (Some id)) ∧ post run = s).
Proof.
  intros run. unfold run. destruct (current_user (manager s)) as [u|] eqn:Hu.
  - destruct (create_resource_cases s ty config lg u Hu)
      as [(l & ext & out & -> & _)|(e & ->)]; [left; by exists l|by right].
  - rewrite (create_resource_closed _ _ _ _ Hu). by right.
Qed.

(** No request replaces the factory, the store or the login service of the
    Manager. *)
Lemma serve_keeps_collaborators r s :
  factory (manager (serve r s)) = factory (manager s)
  ∧ user_repository (manager (serve r s)) = user_repository (manager s)
  ∧ login_service (manager (serve r s)) = login_service (manager s).
Proof.
  destruct r as [name pass| | |name pass role|ty config lg|i| |i|i|i|i]; cbn [serve].
  - unfold ResourceManager.login. unfold_monad.
    destruct (LoginService.authenticate _ _ _ _) as [[[[]|e|] fs'] o]; simpl; try done.
    destruct (UserRepository.find_by_username _ _ _) as [[[[u|]|e|] fs''] o'];
      simpl; done.
  - unfold ResourceManager.logout. unfold_monad.
    destruct (current_user (manager s)); simpl; done.
  - done.
  - by destruct (register_user_frame name pass role s) as (_ & ->).
  - destruct (current_user (manager s)) as [u|] eqn:Hu.
    + destruct (create_resource_cases s ty config lg u Hu)
        as [(l & ext & out & -> & _)|(e & ->)]; done.
    + by rewrite (create_resource_closed _ _ _ _ Hu).
  - done.
  - by rewrite list_resources_post.
  - unfold ResourceManager.start_resource.
    by destruct (operate_post Start i s) as [->|(l & _ & ->)].
  - unfold ResourceManager.stop_resource.
    by destruct (operate_post Stop i s) as [->|(l & _ & ->)].
  - unfold ResourceManager.delete_resource.
    by destruct (operate_post Delete i s) as [->|(l & _ & ->)].
  - by rewrite get_resource_details_post.
Qed.

Lemma reachable_factory s : reachable s → factory (manager s) = ResourceFactory.new.
Proof.
  intros (repo & svc & fs & rs & ->).
  assert (∀ s0, factory (manager (serve_all rs s0)) = factory (manager s0)) as Hall.
  { induction rs as [|r rs IH]; intros s0; [done|].
    rewrite serve_all_cons, IH. apply serve_keeps_collaborators. }
  by rewrite Hall.
Qed.

Lemma factory_builds_app_service f (config : gmap string pyval) h i n a b c :
  registry f !! "AppService" = Some AppService_class →
  config !! "id" = Some i → config !! "name" = Some n →
  config !! "runtime" = Some a → config !! "region" = Some b →
  config !! "replica_count" = Some c →
  ResourceFactory.create_resource f "AppService" config h
  = (Ok (length h), h ++ [AppService i n a b c CreatedState], []).
Proof.
  intros Hreg Hi Hn Ha Hb Hc. unfold ResourceFactory.create_resource.
  rewrite Hreg. cbn [String.eqb Ascii.eqb Bool.eqb].
  by rewrite (subscript_Some _ _ _ _ _ Hi), (subscript_Some _ _ _ _ _ Hn),
    (subscript_Some _ _ _ _ _ Ha), (subscript_Some _ _ _ _ _ Hb),
    (subscript_Some _ _ _ _ _ Hc).
Qed.

Lemma default_registry :
  registry ResourceFactory.new
  = <["CacheDB" := CacheDB_class]>
      (<["StorageAccount" := StorageAccount_class]>
         (<["AppService" := AppService_class]> (∅ : gmap string resource_class))).
Proof. reflexivity. Qed.

(** The factory as [ResourceFactory()] leaves it builds a resource of a
    built-in type from any configuration that has [id] and the fields of
    the type. *)
Lemma factory_builds (config : gmap string pyval) ty fields h i :
  required_fields ty = Some fields →
  Forall (λ key, is_Some (config !! key)) fields →
  config !! "id" = Some i →
  ∃ o, ResourceFactory.create_resource ResourceFactory.new ty config h
       = (Ok (length h), h ++ [o], []).
Proof.
  unfold required_fields. intros Hf Hall Hi.
  destruct (String.eqb ty "AppService") eqn:E1;
    [|destruct (String.eqb ty "StorageAccount") eqn:E2;
      [|destruct (String.eqb ty "CacheDB") eqn:E3; [|done]]].
  - apply String.eqb_eq in E1 as ->. injection Hf as <-.
    rewrite !Forall_cons in Hall.
    destruct Hall as ([n Hn] & [a Ha] & [b Hb] & [c Hc] & _).
    eexists. by apply factory_builds_app_service.
  - apply String.eqb_eq in E2 as ->. injection Hf as <-.
    rewrite !Forall_cons in Hall.
    destruct Hall as ([n Hn] & [a Ha] & [b Hb] & _).
    unfold ResourceFactory.create_resource. rewrite default_registry.
    rewrite lookup_insert_ne, lookup_insert_eq by done.
    cbn [String.eqb Ascii.eqb Bool.eqb].
    rewrite (subscript_Some _ _ _ _ _ Hi), (subscript_Some _ _ _ _ _ Hn),
      (subscript_Some _ _ _ _ _ Ha), (subscript_Some _ _ _ _ _ Hb).
    by eexists.
  - apply String.eqb_eq in E3 as ->. injection Hf as <-.
    rewrite !Forall_cons in Hall.
    destruct Hall as ([n Hn] & [a Ha] & [b Hb] & _).
    unfold ResourceFactory.create_resource. rewrite default_registry.
    rewrite lookup_insert_eq.
    cbn [String.eqb Ascii.eqb Bool.eqb].
    rewrite (subscript_Some _ _ _ _ _ Hi), (subscript_Some _ _ _ _ _ Hn),
      (subscript_Some _ _ _ _ _ Ha), (subscript_Some _ _ _ _ _ Hb).
    by eexists.
Qed.

(** Where the factory builds, [create_resource] of the Manager with a user
    logged in returns the numeral of the counter. *)
Lemma create_resource_returns_id s ty config lg u o :
  current_user (manager s) = Some u →
  ResourceFactory.create_resource (factory (manager s)) ty
    (<["id" := PyStr (pretty (next_id (manager s)))]> config) (heap s)
  = (Ok (length (heap s)), heap s ++ [o], []) →
  outcome (ResourceManager.create_resource ty config lg s)
  = Ok (Some (pretty (next_id (manager s)))).
Proof.
  intros Hu Hbuild. unfold ResourceManager.create_resource.
  rewrite (gate_open _ _ _ Hu). cbn [negb]. unfold_monad. rewrite Hu, Hbuild.
  cbn [manager heap files]. destruct lg; [|done].
  by rewrite (new_decorator _ _ o) by by apply list_lookup_middle.
Qed.

(** C9. Identifiers are sequential and never reused.  Serving any requests
    [rs] on a new Manager, the identifiers that the successful
    [create_resource] calls return are, in the order of the calls, the
    numerals "1", "2", ... with no gap and no repetition, however many
    other requests and failed creations lie in between, and the counter
    stands one beyond the last of them; each call stores a new object that
    carries the identifier under the identifier it returns, the collection
    holds nothing else, and after any further requests [more] the same
    reference is still stored under that identifier.  In the state reached,
    a [create_resource] that returns an identifier returns the numeral of
    the counter, which is under no key of the collection, stores under it
    and advances the counter by one; one that returns none leaves the
    counter and the collection as they were.  And creations do succeed:
    with a user logged in, [create_resource] for a built-in type with a
    configuration that has the fields of the type returns the numeral of
    the counter. *)
Theorem identifiers_sequential_never_reused
    (repo : UserRepository) (svc : LoginService) (fs : Files) (rs : list request) :
  let s0 := boot repo svc fs in
  let s := serve_all rs s0 in
  let log := issued rs s0 in
  log.*1 = pretty <$> seqZ 1 (Z.of_nat (length log))
  ∧ NoDup log.*1
  ∧ next_id (manager s) = (1 + Z.of_nat (length log))%Z
  ∧ (∀ id, is_Some (resources (manager s) !! id) ↔ id ∈ log.*1)
  ∧ (∀ id stored, (id, stored) ∈ log →
       ∃ l : loc, stored = Some l
         ∧ ∀ more,
             resources (manager (serve_all more s)) !! id = Some l
             ∧ ∃ o, heap (serve_all more s) !! l = Some o ∧ attr_id o = PyStr id)
  ∧ (∀ ty config lg id,
       outcome (ResourceManager.create_resource ty config lg s) = Ok (Some id) →
       id = pretty (next_id (manager s))
       ∧ resources (manager s) !! id = None
       ∧ is_Some (resources (manager (post (ResourceManager.create_resource
                                              ty config lg s))) !! id)
       ∧ next_id (manager (post (ResourceManager.create_resource ty config lg s)))
         = (next_id (manager s) + 1)%Z)
  ∧ (∀ ty config lg,
       (∀ id, outcome (ResourceManager.create_resource ty config lg s) ≠ Ok (Some id)) →
       post (ResourceManager.create_resource ty config lg s) = s)
  ∧ (∀ ty fields (config : gmap string pyval) lg u,
       current_user (manager s) = Some u →
       required_fields ty = Some fields →
       Forall (λ key, is_Some (config !! key)) fields →
       outcome (ResourceManager.create_resource ty config lg s)
       = Ok (Some (pretty (next_id (manager s))))).
Proof.
  intros s0 s log.
  destruct (issued_ids rs s0) as [Hids Hnext]. fold log s in Hids, Hnext.
  pose proof (boot_consistent repo svc fs) as Hs0. fold s0 in Hs0.
  assert (consistent s) as Hs by by apply serve_all_consistent.
  assert (∀ id stored, (id, stored) ∈ log →
            ∃ l : loc, stored = Some l
              ∧ ∀ more,
                  resources (manager (serve_all more s)) !! id = Some l
                  ∧ ∃ o, heap (serve_all more s) !! l = Some o
                         ∧ attr_id o = PyStr id) as Hstored.
  { intros id stored Hin.
    destruct (issued_stored rs s0 Hs0 id stored Hin) as (Hres & l & o & -> & Hl & Hid).
    exists l. split; [done|]. intros more. split.
    - by apply serve_all_keeps.
    - destruct (serve_all_keeps_id more _ _ _ Hl) as (o' & Hl' & Hid').
      exists o'. split; [done|]. by rewrite Hid'. }
  split_and!; [done| |done| |done| | |].
  - rewrite Hids. apply (NoDup_fmap_2 _), NoDup_seqZ.
  - intros id. split.
    + intros Hsome. destruct (issued_covers rs s0 id Hsome) as [[l Hl]|Hin]; [|done].
      unfold s0 in Hl. simpl in Hl. by rewrite lookup_empty in Hl.
    + intros ((id' & stored) & -> & Hin)%list_elem_of_fmap.
      destruct (Hstored _ _ Hin) as (l & _ & Hmore).
      destruct (Hmore []) as [Hl _]. by exists l.
  - intros ty config lg id Hout.
    destruct (create_resource_outcome s ty config lg)
      as [(l & Hok & Hres & Hnid)|[Hno _]]; [|by destruct (Hno id)].
    rewrite Hok in Hout. injection Hout as <-.
    split_and!; [done|by apply next_id_fresh| |done].
    rewrite Hres, lookup_insert_eq. by eexists.
  - intros ty config lg Hno.
    destruct (create_resource_outcome s ty config lg)
      as [(l & Hok & _)|[_ Hpost]]; [by destruct (Hno _ Hok)|done].
  - intros ty fields config lg u Hu Hfields Hall.
    assert (reachable s) as Hreach by by do 4 eexists.
    destruct (factory_builds (<["id" := PyStr (pretty (next_id (manager s)))]> config)
                ty fields (heap s) (PyStr (pretty (next_id (manager s)))) Hfields)
      as [o Hbuild].
    + eapply Forall_impl; [exact Hall|]. intros key [v Hv]. simpl.
      rewrite lookup_insert. case_decide; by eexists.
    + apply lookup_insert_eq.
    + eapply create_resource_returns_id; [exact Hu|].
      rewrite (reachable_factory _ Hreach). exact Hbuild.
Qed.

Lemma identifiers_sequential_never_reused_witness :
  let repo := {| filepath := "users.json" |} in
  let config : gmap string pyval :=
    {[ "name" := PyStr "blobs"; "encryption_enabled" := PyBool true;
       "max_size_gb" := PyInt 10 ]} in
  let rs := [RegisterUser "alice" "pw1" "admin"; Login "alice" "pw1";
             CreateResource "StorageAccount" config false;
             CreateResource "Database" config false;
             CreateResource "StorageAccount" config true] in
  let s0 := boot repo (FileLogin repo) {[ "users.json" := [] ]} in
  issued rs s0 = [("1", Some 0); ("2", Some 2)]
  ∧ (issued rs s0).*1 = pretty <$> seqZ 1 2
  ∧ next_id (manager (serve_all rs s0)) = 3%Z
  ∧ outcome (ResourceManager.create_resource "StorageAccount" config false
               (serve_all rs s0)) = Ok (Some "3").
Proof.
  intros repo config rs s0.
  assert (issued rs s0 = [("1", Some 0); ("2", Some 2)]) as Hlog
    by (vm_compute; reflexivity).
  destruct (identifiers_sequential_never_reused repo (FileLogin repo)
              {[ "users.json" := [] ]} rs)
    as (Hids & _ & Hnext & _ & _ & _ & _ & Hprogress).
  fold s0 in Hids, Hnext, Hprogress.
  rewrite Hlog in Hids, Hnext.
  split; [exact Hlog|]. split; [rewrite Hlog; exact Hids|]. split; [exact Hnext|].
  assert (pretty (next_id (manager (serve_all rs s0))) = "3") as <-
    by (vm_compute; reflexivity).
  apply (Hprogress "StorageAccount" ["name"; "encryption_enabled"; "max_size_gb"] config
           false {| username := "alice"; password := "pw1"; role := "admin" |}).
  - vm_compute; reflexivity.
  - reflexivity.
  - repeat constructor; vm_compute; by eexists.
Defined.

(** Three creations, the second refused by the factory: the identifiers are
    "1" and "2". *)
Example identifiers_skip_failed_creation :
  let repo := {| filepath := "users.json" |} in
  let config : gmap string pyval :=
    {[ "name" := PyStr "blobs"; "encryption_enabled" := PyBool true;
       "max_size_gb" := PyInt 10 ]} in
  issued
    [RegisterUser "alice" "pw1" "admin"; Login "alice" "pw1";
     CreateResource "StorageAccount" config false;
     CreateResource "Database" config false;
     CreateResource "StorageAccount" config true]
    (boot repo (FileLogin repo) {[ "users.json" := [] ]})
  = [("1", Some 0); ("2", Some 2)].
Proof. vm_compute. reflexivity. Qed.

(** ** No mutation without a login *)

(** What the methods of the Manager do themselves: in any state that a
    Manager reaches, while no user is logged in, the run of no public
    method changes the heap or the collection.  What a caller does with the
    object that [get_resource] returns is not part of that run. *)
Lemma methods_change_nothing_without_login (s : System) (r : request) :
  reachable s → current_user (manager s) = None →
  heap (serve r s) = heap s
  ∧ resources (manager (serve r s)) = resources (manager s)
  ∧ ∀ id l, resources (manager s) !! id = Some l →
      ∃ st, outcome (CloudResource.get_state l (heap s)) = Ok (get_state_name st)
            ∧ outcome (CloudResource.get_state l (heap (serve r s)))
              = Ok (get_state_name st).
Proof.
  intros Hreach Hu.
  assert (heap (serve r s) = heap s
          ∧ resources (manager (serve r s)) = resources (manager s)) as [Hh Hr].
  { destruct r as [name pass| | |name pass role|ty config lg|i| |i|i|i|i]; cbn [serve].
    - by destruct (login_frame name pass s) as (-> & -> & _).
    - by destruct (logout_frame s) as (-> & -> & _).
    - done.
    - by destruct (register_user_frame name pass role s) as (-> & ->).
    - by rewrite (create_resource_closed _ _ _ _ Hu).
    - done.
    - by rewrite list_resources_post.
    - unfold ResourceManager.start_resource.
      by destruct (operate_closed s Start i Hu) as [_ ->].
    - unfold ResourceManager.stop_resource.
      by destruct (operate_closed s Stop i Hu) as [_ ->].
    - unfold ResourceManager.delete_resource.
      by destruct (operate_closed s Delete i Hu) as [_ ->].
    - by rewrite get_resource_details_post. }
  split_and!; [done..|]. intros id l Hl.
  destruct (handles_resolve _ (reachable_consistent _ Hreach) _ _ Hl)
    as (b & k & Hch & Hk).
  destruct (delegates_plain _ _ _ _ Hch) as (o & Hb & _).
  exists (attr_current_state o). rewrite Hh.
  by rewrite (get_state_resolved _ _ _ _ _ Hch Hk Hb).
Qed.

Lemma methods_change_nothing_without_login_witness :
  let repo := {| filepath := "users.json" |} in
  let s := serve_all
             [RegisterUser "alice" "pw1" "admin"; Login "alice" "pw1";
              CreateResource "AppService"
                {[ "name" := PyStr "W"; "runtime" := PyStr "Python";
                   "region" := PyStr "us-east-1"; "replica_count" := PyInt 3 ]} true;
              Logout]
             (boot repo (FileLogin repo) {[ "users.json" := [] ]}) in
  reachable s ∧ current_user (manager s) = None
  ∧ resources (manager s) !! "1" = Some 1
  ∧ heap (serve (StartResource "1") s) = heap s
  ∧ heap (serve (GetResource "1") s) = heap s.
Proof.
  intros repo s.
  assert (reachable s) as Hreach by (do 4 eexists; reflexivity).
  assert (current_user (manager s) = None) as Hu by reflexivity.
  split; [exact Hreach|]. split; [exact Hu|]. split; [reflexivity|]. split.
  - apply (methods_change_nothing_without_login s (StartResource "1") Hreach Hu).
  - apply (methods_change_nothing_without_login s (GetResource "1") Hreach Hu).
Defined.

(** [get_resource] is the one accessor that is not behind the gate: it
    returns the stored reference to whoever asks, logged in or not. *)
Remark get_resource_not_gated s i :
  ResourceManager.get_resource i s = (Ok (resources (manager s) !! i), s, []).
Proof. reflexivity. Qed.

(** C5 fails on the code.  A Manager on which alice has created an
    AppService and logged out is in a state that a Manager reaches, with no
    user logged in and the resource in state CREATED.  There
    [start_resource] is refused, but [get_resource], which is public and
    not gated, returns the stored object itself, and [start] called on what
    it returned takes the resource of the collection from CREATED to
    RUNNING: the Manager, still with no user logged in, then holds under
    "1" a resource whose state is RUNNING.  The same holds for a resource
    stored behind a [LoggingDecorator]. *)
Theorem get_resource_exposes_mutation :
  let repo := {| filepath := "users.json" |} in
  let config : gmap string pyval :=
    {[ "name" := PyStr "W"; "runtime" := PyStr "Python";
       "region" := PyStr "us-east-1"; "replica_count" := PyInt 3 ]} in
  let s := serve_all
             [RegisterUser "alice" "pw1" "admin"; Login "alice" "pw1";
              CreateResource "AppService" config false;
              CreateResource "AppService" config true;
              Logout]
             (boot repo (FileLogin repo) {[ "users.json" := [] ]}) in
  let started (l : loc) :=
    {| manager := manager s; heap := post (CloudResource.start l (heap s));
       files := files s |} in
  reachable s
  ∧ current_user (manager s) = None
  ∧ ResourceManager.start_resource "1" s
    = (Ok false, s, [Print "Error: You must be logged in to start resources"])
  ∧ ResourceManager.get_resource "1" s = (Ok (Some 0), s, [])
  ∧ resources (manager s) !! "1" = Some 0
  ∧ outcome (CloudResource.get_state 0 (heap s)) = Ok "CREATED"
  ∧ outcome (CloudResource.start 0 (heap s)) = Ok ()
  ∧ current_user (manager (started 0)) = None
  ∧ resources (manager (started 0)) !! "1" = Some 0
  ∧ outcome (CloudResource.get_state 0 (heap (started 0))) = Ok "RUNNING"
  ∧ ResourceManager.get_resource "2" s = (Ok (Some 2), s, [])
  ∧ outcome (CloudResource.get_state 2 (heap s)) = Ok "CREATED"
  ∧ outcome (CloudResource.start 2 (heap s)) = Ok ()
  ∧ current_user (manager (started 2)) = None
  ∧ resources (manager (started 2)) !! "2" = Some 2
  ∧ outcome (CloudResource.get_state 2 (heap (started 2))) = Ok "RUNNING".
Proof.
  intros repo config s started.
  split; [by do 4 eexists|].
  vm_compute. by split_and!.
Qed.

(** ** Deleting through the Manager *)

Lemma append_assoc (a b c : string) : (a +:+ b) +:+ c = a +:+ (b +:+ c).
Proof.
  induction a as [|x a IH]; [done|].
  change (String x ((a +:+ b) +:+ c) = String x (a +:+ (b +:+ c))). by rewrite IH.
Qed.

(** The second line of the details of any resource is its state. *)
Lemma plain_details h b o :
  h !! b = Some o → is_decorator o = false →
  ∃ pre rest,
    get_details_at 1 b h
    = (Ok (pre +:+ "  State: " +:+ get_state_name (attr_current_state o) +:+ rest),
       h, []).
Proof.
  intros Hb Hd. simpl. rewrite (run_load _ _ _ _ Hb).
  destruct o as [i n a1 a2 a3 st|i n a1 a2 st|i n a1 a2 a3 st|]; [| | |done].
  - exists ("AppService[" +:+ py_str i +:+ "]: " +:+ py_str n +:+ nl). eexists.
    rewrite !append_assoc. reflexivity.
  - exists ("StorageAccount[" +:+ py_str i +:+ "]: " +:+ py_str n +:+ nl). eexists.
    rewrite !append_assoc. reflexivity.
  - exists ("CacheDB[" +:+ py_str i +:+ "]: " +:+ py_str n +:+ nl). eexists.
    rewrite !append_assoc. reflexivity.
Qed.

(** C10. A [delete_resource] that returns [True] removes nothing.  In any
    state that a Manager reaches, after such a call a user is still logged
    in, the collection and the counter are what they were, the resource is
    stored under the same identifier and its state is DELETED,
    [list_resources] returns the collection with that entry in it, and
    [get_resource_details] returns the details of the resource with the line
    [State: DELETED]. *)
Theorem delete_keeps_the_entry (s : System) (i : string) :
  reachable s →
  outcome (ResourceManager.delete_resource i s) = Ok true →
  let s' := post (ResourceManager.delete_resource i s) in
  current_user (manager s') ≠ None
  ∧ manager s' = manager s
  ∧ ∃ l,
      resources (manager s) !! i = Some l
      ∧ resources (manager s') !! i = Some l
      ∧ outcome (CloudResource.get_state l (heap s')) = Ok "DELETED"
      ∧ (∃ listed, outcome (ResourceManager.list_resources s') = Ok listed
                   ∧ listed !! i = Some l)
      ∧ ∃ pre rest,
          outcome (ResourceManager.get_resource_details i s')
          = Ok (Some (pre +:+ "  State: DELETED" +:+ rest)).
Proof.
  intros Hreach. unfold ResourceManager.delete_resource, ResourceManager.operate.
  destruct (current_user (manager s)) as [u|] eqn:Hu;
    [rewrite (gate_open _ _ _ Hu)|by rewrite (gate_closed _ _ Hu)].
  cbn [negb]. unfold ResourceManager.get_resource. unfold_monad.
  destruct (resources (manager s) !! i) as [l|] eqn:Hl; [|done].
  destruct (handles_resolve _ (reachable_consistent _ Hreach) _ _ Hl)
    as (b & k & Hch & Hk).
  destruct (delegates_plain _ _ _ _ Hch) as (o & Hb & Hd).
  destruct (call_resolved _ _ _ _ _ Delete Hch Hk Hb) as [out ->].
  destruct (transition (attr_current_state o) Delete) as [st'|] eqn:Ht; [|done].
  assert (st' = DeletedState) as -> by (destruct (attr_current_state o); by simplify_eq/=).
  intros _. cbn [post fst snd manager heap].
  set (h' := <[b := assign_current_state DeletedState o]> (heap s)).
  assert (delegates h' l b k) as Hch'.
  { apply delegates_insert; [done|by eauto|by rewrite is_decorator_assign]. }
  assert (k < length h') as Hk' by (unfold h'; by rewrite length_insert).
  assert (h' !! b = Some (assign_current_state DeletedState o)) as Hb'.
  { apply list_lookup_insert_eq. by eapply lookup_lt_Some. }
  split; [by rewrite Hu|]. split; [done|].
  exists l. split_and!; [done..| | |].
  - rewrite (get_state_resolved _ _ _ _ _ Hch' Hk' Hb').
    by rewrite attr_current_state_assign.
  - exists (resources (manager s)). split; [|done].
    unfold ResourceManager.list_resources. by erewrite gate_open.
  - unfold ResourceManager.get_resource_details. erewrite gate_open by exact Hu.
    cbn [negb]. unfold ResourceManager.get_resource. unfold_monad.
    cbn [manager heap]. rewrite Hl.
    unfold CloudResource.get_details. cbn [manager heap files].
    rewrite (get_details_at_delegates _ _ _ _ Hch' _ Hk').
    destruct (plain_details h' b _ Hb') as (pre & rest & ->);
      [by rewrite is_decorator_assign|].
    rewrite attr_current_state_assign. exists pre, rest. reflexivity.
Qed.

Lemma delete_keeps_the_entry_witness :
  let repo := {| filepath := "users.json" |} in
  let s := serve_all
             [RegisterUser "alice" "pw1" "admin"; Login "alice" "pw1";
              CreateResource "AppService"
                {[ "name" := PyStr "W"; "runtime" := PyStr "Python";
                   "region" := PyStr "us-east-1"; "replica_count" := PyInt 3 ]} true]
             (boot repo (FileLogin repo) {[ "users.json" := [] ]}) in
  reachable s
  ∧ outcome (ResourceManager.delete_resource "1" s) = Ok true
  ∧ ∃ l, resources (manager (post (ResourceManager.delete_resource "1" s))) !! "1"
         = Some l
         ∧ outcome (CloudResource.get_state l
                      (heap (post (ResourceManager.delete_resource "1" s))))
           = Ok "DELETED".
Proof.
  intros repo s.
  assert (reachable s) as Hreach by (do 4 eexists; reflexivity).
  assert (outcome (ResourceManager.delete_resource "1" s) = Ok true) as Hdel
    by reflexivity.
  split; [exact Hreach|]. split; [exact Hdel|].
  destruct (delete_keeps_the_entry s "1" Hreach Hdel)
    as (_ & _ & l & _ & Hl & Hst & _).
  exists l. by split.
Defined.

(** * Further properties of the code *)

(** ** The user store: construction, missing file, update and delete *)

Lemma read_data_Some repo (fs : Files) users {B} (f : list user_data → M Files B) :
  fs !! filepath repo = Some users →
  (UserRepository._read_data repo ≫= f) fs = f users fs.
Proof.
  intros Hfile. apply run_bind_silent. unfold UserRepository._read_data.
  by rewrite Hfile.
Qed.

Lemma read_data_None repo (fs : Files) {B} (f : list user_data → M Files B) :
  fs !! filepath repo = None →
  (UserRepository._read_data repo ≫= f) fs
  = (Raise (FileNotFoundError (filepath repo)), fs, []).
Proof.
  intros Hfile. rewrite run_bind. unfold UserRepository._read_data. by rewrite Hfile.
Qed.



(** X2. On a store whose file is missing every method of the repository
    raises [FileNotFoundError] for the path and changes no file. *)
Theorem repository_missing_file (repo : UserRepository) (fs : Files) (user : User)
    (name : string) :
  fs !! filepath repo = None →
  UserRepository.add_user repo user fs
  = (Raise (FileNotFoundError (filepath repo)), fs, [])
  ∧ UserRepository.find_by_username repo name fs
    = (Raise (FileNotFoundError (filepath repo)), fs, [])
  ∧ UserRepository.get_all_users repo fs
    = (Raise (FileNotFoundError (filepath repo)), fs, [])
  ∧ UserRepository.update_user repo user fs
    = (Raise (FileNotFoundError (filepath repo)), fs, [])
  ∧ UserRepository.delete_user repo name fs
    = (Raise (FileNotFoundError (filepath repo)), fs, []).
Proof.
  intros Hfile.
  unfold UserRepository.add_user, UserRepository.find_by_username,
    UserRepository.get_all_users, UserRepository.update_user,
    UserRepository.delete_user.
  by rewrite !(read_data_None _ _ _ Hfile).
Qed.

Lemma repository_missing_file_witness :
  let repo := {| filepath := "users.json" |} in
  let fs : Files := ∅ in
  fs !! filepath repo = None
  ∧ UserRepository.get_all_users repo fs
    = (Raise (FileNotFoundError "users.json"), fs, []).
Proof.
  intros repo fs.
  assert (fs !! filepath repo = None) as Hfile by reflexivity.
  split; [exact Hfile|].
  apply (repository_missing_file repo fs
           {| username := "a"; password := "b"; role := "c" |} "a" Hfile).
Defined.

(** The record [find_by_username] reads for a name. *)
Lemma find_by_username_run repo (fs : Files) users name :
  fs !! filepath repo = Some users →
  UserRepository.find_by_username repo name fs
  = (Ok (from_dict <$> List.find (λ u, String.eqb (ud_username u) name) users), fs, []).
Proof.
  intros Hfile. unfold UserRepository.find_by_username.
  by rewrite (read_data_Some _ _ _ _ Hfile).
Qed.

Lemma find_absent (name : string) (users : list user_data) :
  List.find (λ u, String.eqb (ud_username u) name) users = None
  ↔ name ∉ ud_username <$> users.
Proof.
  induction users as [|u users IH]; simpl.
  - split; [intros _; apply not_elem_of_nil|done].
  - rewrite not_elem_of_cons. destruct (String.eqb_spec (ud_username u) name) as [Heq|Hne].
    + split; [done|]. by intros [? _].
    + rewrite IH. split; [by intros ?; split|by intros [_ ?]].
Qed.

(** [delete_user]: what is kept. *)
Lemma filter_other_length (name : string) (users : list user_data) :
  (length (List.filter (λ u, negb (String.eqb (ud_username u) name)) users)
   <? length users)%nat
  = bool_decide (name ∈ ud_username <$> users)
  ∧ (length (List.filter (λ u, negb (String.eqb (ud_username u) name)) users)
     ≤ length users)%nat.
Proof.
  induction users as [|u users [IH Hle]]; simpl; [done|].
  destruct (String.eqb_spec (ud_username u) name) as [Heq|Hne]; simpl.
  - split; [|lia]. rewrite bool_decide_eq_true_2 by (rewrite <- Heq; apply list_elem_of_here).
    apply Nat.ltb_lt. lia.
  - split; [|lia]. change (S ?a <? S ?b)%nat with (a <? b)%nat. rewrite IH.
    apply bool_decide_ext. rewrite elem_of_cons.
    split; [by right|]. intros [Heq|Hin]; [by subst|done].
Qed.

Lemma find_filter_other (name name' : string) (users : list user_data) :
  List.find (λ u, String.eqb (ud_username u) name')
    (List.filter (λ u, negb (String.eqb (ud_username u) name)) users)
  = if decide (name' = name) then None
    else List.find (λ u, String.eqb (ud_username u) name') users.
Proof.
  induction users as [|u users IH]; simpl; [by case_decide|].
  destruct (String.eqb_spec (ud_username u) name) as [Heq|Hne]; simpl.
  - rewrite IH. case_decide as Hn; [done|].
    destruct (String.eqb_spec (ud_username u) name'); [congruence|done].
  - destruct (String.eqb_spec (ud_username u) name') as [Heq'|Hne']; [|done].
    case_decide; [congruence|done].
Qed.

(** X3. [delete_user] on a store that holds [users]: for a username that is
    there it returns [True] and writes the list without every record of
    that name, so that the name is no longer found while every other name
    is found as before; for a username that is not there it returns
    [False] and the file is unchanged. *)
Theorem delete_user_removes (repo : UserRepository) (fs : Files)
    (users : list user_data) (name : string) :
  fs !! filepath repo = Some users →
  (name ∈ ud_username <$> users →
     outcome (UserRepository.delete_user repo name fs) = Ok true
     ∧ post (UserRepository.delete_user repo name fs) !! filepath repo
       = Some (List.filter (λ u, negb (String.eqb (ud_username u) name)) users)
     ∧ ∀ name',
         outcome (UserRepository.find_by_username repo name'
                    (post (UserRepository.delete_user repo name fs)))
         = if decide (name' = name) then Ok None
           else outcome (UserRepository.find_by_username repo name' fs))
  ∧ (name ∉ ud_username <$> users →
     UserRepository.delete_user repo name fs = (Ok false, fs, [])).
Proof.
  intros Hfile. unfold UserRepository.delete_user.
  rewrite (read_data_Some _ _ _ _ Hfile).
  destruct (filter_other_length name users) as [-> _]. split.
  - intros Hin. rewrite bool_decide_eq_true_2 by done.
    unfold UserRepository._write_data. unfold_monad. simpl.
    split; [done|]. split; [apply lookup_insert_eq|]. intros name'.
    rewrite (find_by_username_run repo _ _ name' (lookup_insert_eq _ _ _)).
    rewrite (find_by_username_run repo _ _ name' Hfile). simpl.
    rewrite find_filter_other. by case_decide.
  - intros Hout. by rewrite bool_decide_eq_false_2 by done.
Qed.

Lemma delete_user_removes_witness :
  let repo := {| filepath := "users.json" |} in
  let alice := {| ud_username := "alice"; ud_password := "pw1"; ud_role := Some "admin" |} in
  let bob := {| ud_username := "bob"; ud_password := "pw2"; ud_role := None |} in
  let fs : Files := {[ "users.json" := [alice; bob; alice] ]} in
  fs !! filepath repo = Some [alice; bob; alice]
  ∧ "alice" ∈ ud_username <$> [alice; bob; alice]
  ∧ outcome (UserRepository.delete_user repo "alice" fs) = Ok true
  ∧ post (UserRepository.delete_user repo "alice" fs) !! filepath repo = Some [bob].
Proof.
  intros repo alice bob fs.
  assert (fs !! filepath repo = Some [alice; bob; alice]) as Hfile by reflexivity.
  assert ("alice" ∈ ud_username <$> [alice; bob; alice]) as Hin
    by apply list_elem_of_here.
  split; [exact Hfile|]. split; [exact Hin|].
  destruct (delete_user_removes repo fs _ "alice" Hfile) as [Hdel _].
  destruct (Hdel Hin) as (Hout & Hpost & _). by split.
Defined.

Lemma replace_first_None (user : User) (users : list user_data) :
  UserRepository.replace_first user users = None
  ↔ username user ∉ ud_username <$> users.
Proof.
  induction users as [|u users IH]; simpl.
  - split; [intros _; apply not_elem_of_nil|done].
  - rewrite not_elem_of_cons.
    destruct (String.eqb_spec (ud_username u) (username user)) as [Heq|Hne].
    + split; [done|]. by intros [? _].
    + rewrite fmap_None, IH. split; [by intros ?; split|by intros [_ ?]].
Qed.

Lemma replace_first_Some (user : User) (users users' : list user_data) :
  UserRepository.replace_first user users = Some users' →
  ud_username <$> users' = ud_username <$> users
  ∧ ∀ name', List.find (λ u, String.eqb (ud_username u) name') users'
             = if decide (name' = username user) then Some (to_dict user)
               else List.find (λ u, String.eqb (ud_username u) name') users.
Proof.
  revert users'. induction users as [|u users IH]; intros users'; simpl; [done|].
  destruct (String.eqb_spec (ud_username u) (username user)) as [Heq|Hne].
  - intros [= <-]. simpl. split; [by rewrite Heq|]. intros name'.
    rewrite Heq. destruct (String.eqb_spec (username user) name') as [<-|Hn].
    + by rewrite decide_True.
    + by rewrite decide_False by done.
  - destruct (UserRepository.replace_first user users) as [rest|]; [|done].
    intros [= <-]. destruct (IH rest eq_refl) as [Hnames Hfind].
    split; [rewrite !fmap_cons; by rewrite Hnames|]. intros name'. simpl.
    rewrite Hfind.
    destruct (String.eqb_spec (ud_username u) name') as [Heq'|Hne']; [|done].
    by rewrite decide_False by congruence.
Qed.

(** X4. [update_user] on a store that holds [users]: for a username that is
    there it returns [True], replaces the first record of that name and no
    other, so that the usernames of the file are the same list, the name is
    found with the new password and role, and every other name is found as
    before; for a username that is not there it returns [False] and the file
    is unchanged. *)
Theorem update_user_replaces (repo : UserRepository) (fs : Files)
    (users : list user_data) (user : User) :
  fs !! filepath repo = Some users →
  (username user ∈ ud_username <$> users →
     ∃ users',
       UserRepository.update_user repo user fs
       = (Ok true, <[filepath repo := users']> fs, [])
       ∧ ud_username <$> users' = ud_username <$> users
       ∧ ∀ name',
           outcome (UserRepository.find_by_username repo name'
                      (post (UserRepository.update_user repo user fs)))
           = if decide (name' = username user) then Ok (Some user)
             else outcome (UserRepository.find_by_username repo name' fs))
  ∧ (username user ∉ ud_username <$> users →
     UserRepository.update_user repo user fs = (Ok false, fs, [])).
Proof.
  intros Hfile. unfold UserRepository.update_user.
  rewrite (read_data_Some _ _ _ _ Hfile). split.
  - intros Hin.
    destruct (UserRepository.replace_first user users) as [users'|] eqn:Hrep;
      [|by apply replace_first_None in Hrep].
    destruct (replace_first_Some _ _ _ Hrep) as [Hnames Hfind].
    exists users'. unfold UserRepository._write_data. unfold_monad. simpl.
    split; [done|]. split; [done|]. intros name'.
    rewrite (find_by_username_run repo _ _ name' (lookup_insert_eq _ _ _)).
    rewrite (find_by_username_run repo _ _ name' Hfile). simpl.
    rewrite Hfind. case_decide; [|done]. simpl. by rewrite from_to_dict.
  - intros Hout. apply replace_first_None in Hout. by rewrite Hout.
Qed.

Lemma update_user_replaces_witness :
  let repo := {| filepath := "users.json" |} in
  let alice := {| ud_username := "alice"; ud_password := "pw1"; ud_role := Some "admin" |} in
  let promoted := {| username := "alice"; password := "pw1"; role := "superadmin" |} in
  let fs : Files := {[ "users.json" := [alice] ]} in
  fs !! filepath repo = Some [alice]
  ∧ username promoted ∈ ud_username <$> [alice]
  ∧ outcome (UserRepository.find_by_username repo "alice"
               (post (UserRepository.update_user repo promoted fs)))
    = Ok (Some promoted).
Proof.
  intros repo alice promoted fs.
  assert (fs !! filepath repo = Some [alice]) as Hfile by reflexivity.
  assert (username promoted ∈ ud_username <$> [alice]) as Hin by apply list_elem_of_here.
  split; [exact Hfile|]. split; [exact Hin|].
  destruct (update_user_replaces repo fs [alice] promoted Hfile) as [Hup _].
  destruct (Hup Hin) as (users' & _ & _ & Hfind).
  apply (Hfind "alice").
Defined.

Lemma NoDup_filter_usernames (name : string) (users : list user_data) :
  NoDup (ud_username <$> users) →
  NoDup (ud_username <$> List.filter (λ u, negb (String.eqb (ud_username u) name)) users).
Proof.
  induction users as [|u users IH]; simpl; [done|].
  rewrite NoDup_cons. intros [Hu Hrest].
  destruct (negb (String.eqb (ud_username u) name)); simpl; [|by apply IH].
  apply NoDup_cons. split; [|by apply IH].
  intros (v & Hv & Hin)%list_elem_of_fmap. apply Hu.
  apply list_elem_of_fmap. exists v. split; [done|].
  apply list_elem_of_In. apply list_elem_of_In in Hin.
  by apply List.filter_In in Hin as [? _].
Qed.

(** X5. Usernames stay unique.  On a store in which no username occurs
    twice, whatever [add_user], [update_user] or [delete_user] is called
    with, the file afterwards holds a list in which no username occurs
    twice. *)
Theorem repository_keeps_usernames_unique (repo : UserRepository) (fs : Files)
    (users : list user_data) (user : User) (name : string) :
  fs !! filepath repo = Some users →
  NoDup (ud_username <$> users) →
  (∃ users', post (UserRepository.add_user repo user fs) !! filepath repo = Some users'
             ∧ NoDup (ud_username <$> users'))
  ∧ (∃ users', post (UserRepository.update_user repo user fs) !! filepath repo
               = Some users'
               ∧ NoDup (ud_username <$> users'))
  ∧ (∃ users', post (UserRepository.delete_user repo name fs) !! filepath repo
               = Some users'
               ∧ NoDup (ud_username <$> users')).
Proof.
  intros Hfile Hnd. split_and!.
  - destruct (decide (username user ∈ ud_username <$> users)) as [Hin|Hout].
    + rewrite (add_user_taken _ _ _ _ Hfile Hin). by exists users.
    + rewrite (add_user_fresh _ _ _ _ Hfile Hout). eexists.
      split; [apply lookup_insert_eq|].
      rewrite fmap_app. apply NoDup_app. split; [done|]. split.
      * intros x Hx [->|[]%elem_of_nil]%elem_of_cons. done.
      * apply NoDup_singleton.
  - destruct (update_user_replaces repo fs users user Hfile) as [Hup Hno].
    destruct (decide (username user ∈ ud_username <$> users)) as [Hin|Hout].
    + destruct (Hup Hin) as (users' & -> & Hnames & _). exists users'.
      split; [apply lookup_insert_eq|by rewrite Hnames].
    + rewrite (Hno Hout). by exists users.
  - destruct (delete_user_removes repo fs users name Hfile) as [Hdel Hno].
    destruct (decide (name ∈ ud_username <$> users)) as [Hin|Hout].
    + destruct (Hdel Hin) as (_ & -> & _). eexists. split; [done|].
      by apply NoDup_filter_usernames.
    + rewrite (Hno Hout). by exists users.
Qed.

Lemma repository_keeps_usernames_unique_witness :
  let repo := {| filepath := "users.json" |} in
  let alice := {| ud_username := "alice"; ud_password := "pw1"; ud_role := Some "admin" |} in
  let fs : Files := {[ "users.json" := [alice] ]} in
  fs !! filepath repo = Some [alice]
  ∧ NoDup (ud_username <$> [alice])
  ∧ ∃ users',
      post (UserRepository.add_user repo
              {| username := "bob"; password := "pw2"; role := "user" |} fs)
      !! filepath repo = Some users'
      ∧ NoDup (ud_username <$> users').
Proof.
  intros repo alice fs.
  assert (fs !! filepath repo = Some [alice]) as Hfile by reflexivity.
  assert (NoDup (ud_username <$> [alice])) as Hnd by apply NoDup_singleton.
  split; [exact Hfile|]. split; [exact Hnd|].
  apply (repository_keeps_usernames_unique repo fs [alice]
           {| username := "bob"; password := "pw2"; role := "user" |} "x" Hfile Hnd).
Defined.

(** ** Authentication *)

(** Whether the first record of [name] in [users] carries the password. *)
Lemma file_authenticate_run repo (fs : Files) users name pass :
  fs !! filepath repo = Some users →
  ∃ out,
    LoginService.authenticate (FileLogin repo) name pass fs
    = (Ok (match List.find (λ u, String.eqb (ud_username u) name) users with
           | Some u => String.eqb (ud_password u) pass
           | None => false
           end), fs, out).
Proof.
  intros Hfile. unfold LoginService.authenticate.
  rewrite run_bind, (find_by_username_run _ _ _ _ Hfile).
  destruct (List.find _ users) as [u|]; simpl; [|by eexists].
  destruct (String.eqb (ud_password u) pass); by eexists.
Qed.

(** X6. The file-based service accepts a name and a password exactly when
    the first record of that name in the store carries exactly that
    password; a name that is not in the store is never accepted; and the
    call changes no file. *)
Theorem file_login_checks_first_record (repo : UserRepository) (fs : Files)
    (users : list user_data) (name pass : string) :
  fs !! filepath repo = Some users →
  post (LoginService.authenticate (FileLogin repo) name pass fs) = fs
  ∧ (outcome (LoginService.authenticate (FileLogin repo) name pass fs) = Ok true
     ∨ outcome (LoginService.authenticate (FileLogin repo) name pass fs) = Ok false)
  ∧ (outcome (LoginService.authenticate (FileLogin repo) name pass fs) = Ok true
     ↔ ∃ u, List.find (λ u, String.eqb (ud_username u) name) users = Some u
            ∧ ud_password u = pass)
  ∧ (name ∉ ud_username <$> users →
     outcome (LoginService.authenticate (FileLogin repo) name pass fs) = Ok false).
Proof.
  intros Hfile. destruct (file_authenticate_run repo fs users name pass Hfile) as [out ->].
  simpl. split; [done|].
  destruct (List.find _ users) as [u|] eqn:Hfind.
  - destruct (String.eqb_spec (ud_password u) pass) as [Hp|Hp].
    + split_and!; [by left| |].
      * split; [by exists u|done].
      * intros Hout. apply find_absent in Hout. congruence.
    + split_and!; [by right| |done].
      split; [done|]. intros (u' & [= <-] & ?). done.
  - split_and!; [by right| |done]. split; [done|]. by intros (u' & ? & _).
Qed.

Lemma file_login_checks_first_record_witness :
  let repo := {| filepath := "users.json" |} in
  let old := {| ud_username := "alice"; ud_password := "pw1"; ud_role := Some "admin" |} in
  let dup := {| ud_username := "alice"; ud_password := "pw2"; ud_role := Some "user" |} in
  let fs : Files := {[ "users.json" := [old; dup] ]} in
  fs !! filepath repo = Some [old; dup]
  ∧ outcome (LoginService.authenticate (FileLogin repo) "alice" "pw1" fs) = Ok true
  ∧ post (LoginService.authenticate (FileLogin repo) "alice" "pw1" fs) = fs.
Proof.
  intros repo old dup fs.
  assert (fs !! filepath repo = Some [old; dup]) as Hfile by reflexivity.
  split; [exact Hfile|].
  destruct (file_login_checks_first_record repo fs [old; dup] "alice" "pw1" Hfile)
    as (Hpost & _ & Hiff & _).
  split; [|exact Hpost]. apply Hiff. exists old. by split.
Defined.

Lemma service_authenticate_run url key name pass (fs : Files) :
  ∃ out,
    LoginService.authenticate (ServiceLogin url key) name pass fs
    = (Ok (negb (String.eqb name "") && negb (String.eqb pass "")), fs, out).
Proof.
  unfold LoginService.authenticate. unfold_monad.
  destruct (negb (String.eqb name "") && negb (String.eqb pass "")); by eexists.
Qed.

(** X7. With the file-based service over the Manager's own store, [login]
    returns [True] exactly when the first record of the name carries the
    password, and then the session is that record; every other login
    returns [False] and leaves the whole system as it was, the session
    included. *)
Theorem login_with_file_service (s : System) (users : list user_data)
    (name pass : string) :
  login_service (manager s) = FileLogin (user_repository (manager s)) →
  files s !! filepath (user_repository (manager s)) = Some users →
  match List.find (λ u, String.eqb (ud_username u) name) users with
  | Some u =>
      if String.eqb (ud_password u) pass then
        outcome (ResourceManager.login name pass s) = Ok true
        ∧ post (ResourceManager.login name pass s)
          = {| manager := set_current_user (Some (from_dict u)) (manager s);
               heap := heap s; files := files s |}
      else
        outcome (ResourceManager.login name pass s) = Ok false
        ∧ post (ResourceManager.login name pass s) = s
  | None =>
      outcome (ResourceManager.login name pass s) = Ok false
      ∧ post (ResourceManager.login name pass s) = s
  end.
Proof.
  intros Hsvc Hfile. unfold ResourceManager.login. unfold_monad. rewrite Hsvc.
  destruct (file_authenticate_run _ _ _ name pass Hfile) as [out ->].
  pose proof (find_by_username_run _ _ _ name Hfile) as Hrun.
  destruct (List.find _ users) as [u|] eqn:Hfind; [|simpl; by rewrite system_eta].
  destruct (String.eqb (ud_password u) pass); [|simpl; by rewrite system_eta].
  cbn [files manager heap]. by rewrite Hrun.
Qed.

Lemma login_with_file_service_witness :
  let repo := {| filepath := "users.json" |} in
  let s := serve_all [RegisterUser "alice" "pw1" "admin"; Login "alice" "pw1"]
             (boot repo (FileLogin repo) {[ "users.json" := [] ]}) in
  login_service (manager s) = FileLogin (user_repository (manager s))
  ∧ files s !! filepath (user_repository (manager s))
    = Some [{| ud_username := "alice"; ud_password := "pw1"; ud_role := Some "admin" |}]
  ∧ outcome (ResourceManager.login "ghost" "x" s) = Ok false
  ∧ post (ResourceManager.login "ghost" "x" s) = s.
Proof.
  intros repo s.
  assert (login_service (manager s) = FileLogin (user_repository (manager s))) as Hsvc
    by reflexivity.
  assert (files s !! filepath (user_repository (manager s))
          = Some [{| ud_username := "alice"; ud_password := "pw1";
                     ud_role := Some "admin" |}]) as Hfile by reflexivity.
  split; [exact Hsvc|]. split; [exact Hfile|].
  apply (login_with_file_service s _ "ghost" "x" Hsvc Hfile).
Defined.

(** X8. With the service-based login, [login] returns [True] exactly when
    name and password are both non-empty and the store has a record of the
    name; the password of that record is never compared, and the session
    becomes the first record of the name. *)
Theorem login_with_service_ignores_password (s : System) (users : list user_data)
    (url key name pass : string) :
  login_service (manager s) = ServiceLogin url key →
  files s !! filepath (user_repository (manager s)) = Some users →
  name ≠ "" → pass ≠ "" →
  match List.find (λ u, String.eqb (ud_username u) name) users with
  | Some u =>
      outcome (ResourceManager.login name pass s) = Ok true
      ∧ current_user (manager (post (ResourceManager.login name pass s)))
        = Some (from_dict u)
  | None =>
      outcome (ResourceManager.login name pass s) = Ok false
      ∧ current_user (manager (post (ResourceManager.login name pass s))) = None
  end.
Proof.
  intros Hsvc Hfile Hname Hpass. unfold ResourceManager.login. unfold_monad.
  rewrite Hsvc.
  destruct (service_authenticate_run url key name pass (files s)) as [out ->].
  apply String.eqb_neq in Hname, Hpass. rewrite Hname, Hpass.
  cbn [negb andb files manager heap]. rewrite (find_by_username_run _ _ _ name Hfile).
  by destruct (List.find _ users) as [u|].
Qed.

Lemma login_with_service_ignores_password_witness :
  let repo := {| filepath := "users.json" |} in
  let s := serve_all [RegisterUser "alice" "pw1" "admin"]
             (boot repo (ServiceLogin "https://auth.example.com" "k")
                {[ "users.json" := [] ]}) in
  outcome (ResourceManager.login "alice" "not-her-password" s) = Ok true
  ∧ current_user (manager (post (ResourceManager.login "alice" "not-her-password" s)))
    = Some {| username := "alice"; password := "pw1"; role := "admin" |}.
Proof.
  intros repo s.
  apply (login_with_service_ignores_password s
           [{| ud_username := "alice"; ud_password := "pw1"; ud_role := Some "admin" |}]
           "https://auth.example.com" "k" "alice" "not-her-password");
    [reflexivity|reflexivity|done|done].
Defined.

(** A login that returns [True] leaves a user logged in. *)
Lemma login_true_authenticated s name pass :
  outcome (ResourceManager.login name pass s) = Ok true →
  ∃ u, current_user (manager (post (ResourceManager.login name pass s))) = Some u.
Proof.
  unfold ResourceManager.login. unfold_monad.
  destruct (LoginService.authenticate _ _ _ _) as [[[[]|e|] fs'] o]; simpl; try done.
  destruct (UserRepository.find_by_username _ _ _) as [[[[u|]|e|] fs''] o'];
    simpl; try done.
  by exists u.
Qed.

Lemma list_resources_open s u :
  current_user (manager s) = Some u →
  ResourceManager.list_resources s = (Ok (resources (manager s)), s, []).
Proof.
  intros Hu. unfold ResourceManager.list_resources. by rewrite (gate_open _ _ _ Hu).
Qed.

(** X9. The collection belongs to the Manager, not to a user.  [logout]
    never fails, ends the session and changes nothing else; whoever logs in
    afterwards is given by [list_resources] the whole collection as it was
    before the logout, whoever created its resources. *)
Theorem collection_survives_sessions (s : System) (name pass : string) :
  let s1 := post (ResourceManager.logout s) in
  outcome (ResourceManager.logout s) = Ok ()
  ∧ s1 = {| manager := set_current_user None (manager s); heap := heap s;
            files := files s |}
  ∧ (outcome (ResourceManager.login name pass s1) = Ok true →
     outcome (ResourceManager.list_resources (post (ResourceManager.login name pass s1)))
     = Ok (resources (manager s))
     ∧ heap (post (ResourceManager.login name pass s1)) = heap s).
Proof.
  intros s1.
  assert (outcome (ResourceManager.logout s) = Ok ()
          ∧ s1 = {| manager := set_current_user None (manager s); heap := heap s;
                    files := files s |}) as [Hout Hs1].
  { unfold s1, ResourceManager.logout. unfold_monad.
    destruct s as [[repo svc f rs n [u|]] h fs]; by simpl. }
  split; [done|]. split; [done|]. intros Hin.
  destruct (login_true_authenticated _ _ _ Hin) as [u Hu].
  destruct (login_frame name pass s1) as (Hh & Hr & _).
  assert (heap s1 = heap s ∧ resources (manager s1) = resources (manager s))
    as [Hh1 Hr1] by by rewrite Hs1.
  split.
  - rewrite (list_resources_open _ _ Hu). cbn [outcome fst]. congruence.
  - congruence.
Qed.

Lemma collection_survives_sessions_witness :
  let repo := {| filepath := "users.json" |} in
  let s := serve_all
             [RegisterUser "alice" "pw1" "admin"; RegisterUser "bob" "pw2" "user";
              Login "alice" "pw1";
              CreateResource "StorageAccount"
                {[ "name" := PyStr "blobs"; "encryption_enabled" := PyBool true;
                   "max_size_gb" := PyInt 10 ]} false]
             (boot repo (FileLogin repo) {[ "users.json" := [] ]}) in
  let s1 := post (ResourceManager.logout s) in
  outcome (ResourceManager.login "bob" "pw2" s1) = Ok true
  ∧ outcome (ResourceManager.list_resources (post (ResourceManager.login "bob" "pw2" s1)))
    = Ok (resources (manager s))
  ∧ resources (manager s) !! "1" = Some 0.
Proof.
  intros repo s s1.
  assert (outcome (ResourceManager.login "bob" "pw2" s1) = Ok true) as Hin
    by reflexivity.
  split; [exact Hin|]. split; [|reflexivity].
  destruct (collection_survives_sessions s "bob" "pw2") as (_ & _ & Hlist).
  apply (Hlist Hin).
Defined.

(** ** Resources and decorators: sequences, output, [set_state] *)

Lemma after_call h l st op :
  outcome (CloudResource.get_state l h) = Ok (get_state_name st) →
  outcome (CloudResource.get_state l (post (CloudResource.call op l h)))
  = Ok (get_state_name (after st op)).
Proof.
  intros Hst.
  destruct (get_state_Ok _ _ _ Hst) as (b & k & o & Hch & Hk & Hb & Hname).
  apply get_state_name_inj in Hname as ->.
  destruct (delegates_plain _ _ _ _ Hch) as (o' & Hb' & Hd).
  assert (o' = o) as -> by congruence.
  destruct (call_resolved _ _ _ _ _ op Hch Hk Hb) as [out ->].
  unfold after. destruct (transition (attr_current_state o) op) as [st'|]; simpl.
  - rewrite (get_state_resolved _ l b k (assign_current_state st' o)).
    + simpl. by rewrite attr_current_state_assign.
    + apply delegates_insert; [done|by eauto|by rewrite is_decorator_assign].
    + by rewrite length_insert.
    + apply list_lookup_insert_eq. by eapply lookup_lt_Some.
  - by rewrite (get_state_resolved _ _ _ _ _ Hch Hk Hb).
Qed.

(** X10. Any sequence of start, stop and delete calls on one reference,
    plain or wrapped, leaves the resource in the state that the table gives
    when the refused calls of the sequence are skipped. *)
Theorem sequences_follow_table (ops : list operation) :
  ∀ (h : Heap) (l : loc) (st : ResourceState),
    outcome (CloudResource.get_state l h) = Ok (get_state_name st) →
    outcome (CloudResource.get_state l (run_calls ((λ op, (op, l)) <$> ops) h))
    = Ok (get_state_name (foldl after st ops)).
Proof.
  induction ops as [|op ops IH]; intros h l st Hst; [done|].
  rewrite fmap_cons. cbn [run_calls foldl]. apply IH. by apply after_call.
Qed.

Lemma sequences_follow_table_witness :
  let h := [AppService (PyStr "1") (PyStr "web") (PyStr "Python") (PyStr "eu") (PyInt 2)
              CreatedState;
            LoggingDecorator 0 (PyStr "1") (PyStr "web") CreatedState] in
  outcome (CloudResource.get_state 1 h) = Ok "CREATED"
  ∧ outcome (CloudResource.get_state 1
               (run_calls [(Stop, 1); (Start, 1); (Delete, 1); (Stop, 1); (Delete, 1);
                           (Start, 1)] h))
    = Ok "DELETED".
Proof.
  intros h. split; [reflexivity|].
  apply (sequences_follow_table [Stop; Start; Delete; Stop; Delete; Start]
           h 1 CreatedState).
  reflexivity.
Defined.

(** X11. A call through a reference changes, in the whole heap, nothing but
    the [current_state] of the plain resource the reference leads to: the
    heap keeps its size, every other object is what it was, and every
    decorator keeps its own copies of [id], [name] and [current_state] as
    they were when it was built. *)
Theorem call_changes_one_object (h : Heap) (l : loc) (op : operation) :
  length (post (CloudResource.call op l h)) = length h
  ∧ (∀ p o, h !! p = Some o →
       ∃ st, post (CloudResource.call op l h) !! p = Some (assign_current_state st o))
  ∧ (∀ p o, h !! p = Some o → is_decorator o = true →
       post (CloudResource.call op l h) !! p = Some o)
  ∧ (∀ b k, delegates h l b k → k < length h →
       ∀ p, p ≠ b → post (CloudResource.call op l h) !! p = h !! p).
Proof.
  split; [apply call_post_length|]. split; [apply heap_extends_call|]. split.
  - intros p o Hp Hdec.
    destruct (call_post op l h) as [->|(q & o' & st' & Hq & Hdq & _ & ->)]; [done|].
    rewrite list_lookup_insert_ne; [done|]. intros ->. congruence.
  - intros b k Hch Hk p Hp.
    destruct (delegates_plain _ _ _ _ Hch) as (ob & Hb & _).
    destruct (call_resolved _ _ _ _ _ op Hch Hk Hb) as [out ->].
    destruct (transition (attr_current_state ob) op); cbn [post fst snd]; [|done].
    by rewrite list_lookup_insert_ne.
Qed.

(** After a start through its decorator the resource is RUNNING while the
    decorator's own [current_state] is still the CREATED it copied. *)
Example decorator_snapshot_is_stale :
  let h := [AppService (PyStr "1") (PyStr "web") (PyStr "Python") (PyStr "eu") (PyInt 2)
              CreatedState;
            LoggingDecorator 0 (PyStr "1") (PyStr "web") CreatedState] in
  post (CloudResource.start 1 h) !! 1
  = Some (LoggingDecorator 0 (PyStr "1") (PyStr "web") CreatedState)
  ∧ outcome (CloudResource.get_state 1 (post (CloudResource.start 1 h))) = Ok "RUNNING".
Proof. vm_compute. done. Qed.

(** The output of a decorator: its line before, the output of the wrapped
    call, its line after. *)
Lemma call_at_decorator_output fuel op l h w i n st :
  h !! l = Some (LoggingDecorator w i n st) →
  call_at (S fuel) op l h
  = (outcome (call_at fuel op w h), post (call_at fuel op w h),
     log_attempt op n :: output (call_at fuel op w h)
     ++ log_result op n (outcome (call_at fuel op w h))).
Proof.
  intros Hl. simpl. rewrite (run_load _ _ _ _ Hl).
  rewrite run_bind. simpl. unfold try_except. rewrite run_bind.
  destruct (call_at fuel op w h) as [[[[]|e|] h'] o']; simpl;
    by rewrite ?app_nil_r.
Qed.

Lemma call_at_output h l b k :
  delegates h l b k →
  ∀ fuel op, k < fuel →
    output (call_at fuel op l h)
    = (log_attempt op <$> decorator_names fuel h l)
      ++ output (call_at 1 op b h)
      ++ concat ((λ n, log_result op n (outcome (call_at 1 op b h)))
                   <$> reverse (decorator_names fuel h l)).
Proof.
  induction 1 as [l o Hl Hd | l w i n st b k Hl Hw IH]; intros [|fuel] op Hk; try lia.
  - rewrite (call_at_plain fuel _ _ _ _ Hl Hd), (call_at_plain 0 _ _ _ _ Hl Hd).
    cbn [decorator_names]. rewrite Hl. destruct o; try done; simpl; by rewrite app_nil_r.
  - rewrite (call_at_decorator_output fuel op l h w i n st Hl).
    destruct (call_at_delegates _ _ _ _ Hw fuel op ltac:(lia)) as [out Heq].
    cbn [decorator_names]. rewrite Hl. unfold output at 1. cbn [snd].
    rewrite (IH fuel op ltac:(lia)). rewrite Heq. cbn [outcome fst].
    rewrite fmap_cons, reverse_cons, fmap_app, concat_app. simpl.
    rewrite app_nil_r, <- !app_assoc. done.
Qed.



Lemma set_state_at_delegates h l b k :
  delegates h l b k →
  ∀ fuel st o, k < fuel → h !! b = Some o →
    set_state_at fuel l st h = (Ok (), <[b := assign_current_state st o]> h, []).
Proof.
  induction 1 as [l o Hl Hd | l w i n st0 b k Hl Hw IH];
    intros [|fuel] st o' Hk Hb; try lia.
  - simpl. rewrite (run_load _ _ _ _ Hl). assert (o' = o) as -> by congruence.
    destruct o; try done; unfold CloudResource_set_state;
      by rewrite (run_load _ _ _ _ Hl).
  - simpl. rewrite (run_load _ _ _ _ Hl). apply IH; [lia|done].
Qed.

(** X13. [set_state] is not checked against the table.  Through any
    reference, plain or wrapped, it puts the resource into whatever state
    it is given, and [get_state] then reports that state; so it also takes
    a DELETED resource back to RUNNING, which no start, stop or delete
    does. *)
Theorem set_state_overrides_table (h : Heap) (l : loc) (now : string)
    (st : ResourceState) :
  outcome (CloudResource.get_state l h) = Ok now →
  outcome (ResourceDecorator.set_state l st h) = Ok ()
  ∧ outcome (CloudResource.get_state l (post (ResourceDecorator.set_state l st h)))
    = Ok (get_state_name st)
  ∧ output (ResourceDecorator.set_state l st h) = [].
Proof.
  intros Hst.
  destruct (get_state_Ok _ _ _ Hst) as (b & k & o & Hch & Hk & Hb & _).
  destruct (delegates_plain _ _ _ _ Hch) as (o' & Hb' & Hd).
  assert (o' = o) as -> by congruence.
  unfold ResourceDecorator.set_state.
  rewrite (set_state_at_delegates _ _ _ _ Hch _ st o Hk Hb). cbn [outcome post output fst snd].
  split; [done|]. split; [|done].
  rewrite (get_state_resolved _ l b k (assign_current_state st o)).
  - simpl. by rewrite attr_current_state_assign.
  - apply delegates_insert; [done|by eauto|by rewrite is_decorator_assign].
  - by rewrite length_insert.
  - apply list_lookup_insert_eq. by eapply lookup_lt_Some.
Qed.

Lemma set_state_overrides_table_witness :
  let h := [CacheDB (PyStr "1") (PyStr "c") (PyInt 60) (PyInt 64) (PyStrategy LRUStrategy)
              DeletedState;
            LoggingDecorator 0 (PyStr "1") (PyStr "c") CreatedState] in
  outcome (CloudResource.get_state 1 h) = Ok "DELETED"
  ∧ outcome (CloudResource.get_state 1
               (post (ResourceDecorator.set_state 1 RunningState h))) = Ok "RUNNING".
Proof.
  intros h. split; [reflexivity|].
  apply (set_state_overrides_table h 1 "DELETED" RunningState). reflexivity.
Defined.

(** ** The factory: fields, registration, listing *)

(** X14. What the factory of a new Manager asks of a configuration: for
    each of the three types the fields are read in a fixed order, the first
    one that is missing is reported by a [KeyError] with the heap untouched,
    and when none is missing one new plain resource in state CREATED is
    allocated at the end of the heap. *)
Theorem factory_reports_first_missing_field (config : gmap string pyval) (h : Heap)
    (ty : string) (fields : list string) :
  (ty, fields) ∈ [("AppService", ["id"; "name"; "runtime"; "region"; "replica_count"]);
                  ("StorageAccount", ["id"; "name"; "encryption_enabled"; "max_size_gb"]);
                  ("CacheDB", ["id"; "name"; "ttl_seconds"; "capacity_mb"])] →
  match List.find (λ k, bool_decide (config !! k = None)) fields with
  | Some k =>
      ResourceFactory.create_resource ResourceFactory.new ty config h
      = (Raise (KeyError k), h, [])
  | None =>
      ∃ o, ResourceFactory.create_resource ResourceFactory.new ty config h
           = (Ok (length h), h ++ [o], [])
           ∧ is_decorator o = false ∧ attr_current_state o = CreatedState
           ∧ Some (attr_id o) = config !! "id" ∧ Some (attr_name o) = config !! "name"
  end.
Proof.
  intros Hin. unfold ResourceFactory.create_resource.
  repeat (apply elem_of_cons in Hin as [[= -> ->]|Hin]); [| | |by apply elem_of_nil in Hin].
  all: change (registry ResourceFactory.new !! _) with (Some AppService_class)
       || change (registry ResourceFactory.new !! _) with (Some StorageAccount_class)
       || change (registry ResourceFactory.new !! _) with (Some CacheDB_class).
  all: cbn [String.eqb Ascii.eqb Bool.eqb].
  all: cbn [List.find].
  all: destruct (config !! "id") as [i|] eqn:Hi;
    [rewrite (subscript_Some _ _ _ _ _ Hi), bool_decide_eq_false_2 by done
    |by rewrite (subscript_None _ _ _ _ Hi), bool_decide_eq_true_2 by done].
  all: destruct (config !! "name") as [n|] eqn:Hn;
    [rewrite (subscript_Some _ _ _ _ _ Hn), bool_decide_eq_false_2 by done
    |by rewrite (subscript_None _ _ _ _ Hn), bool_decide_eq_true_2 by done].
  - destruct (config !! "runtime") as [a|] eqn:Ha;
      [rewrite (subscript_Some _ _ _ _ _ Ha), bool_decide_eq_false_2 by done
      |by rewrite (subscript_None _ _ _ _ Ha), bool_decide_eq_true_2 by done].
    destruct (config !! "region") as [b|] eqn:Hb;
      [rewrite (subscript_Some _ _ _ _ _ Hb), bool_decide_eq_false_2 by done
      |by rewrite (subscript_None _ _ _ _ Hb), bool_decide_eq_true_2 by done].
    destruct (config !! "replica_count") as [c|] eqn:Hc;
      [rewrite (subscript_Some _ _ _ _ _ Hc), bool_decide_eq_false_2 by done
      |by rewrite (subscript_None _ _ _ _ Hc), bool_decide_eq_true_2 by done].
    by eexists.
  - destruct (config !! "encryption_enabled") as [a|] eqn:Ha;
      [rewrite (subscript_Some _ _ _ _ _ Ha), bool_decide_eq_false_2 by done
      |by rewrite (subscript_None _ _ _ _ Ha), bool_decide_eq_true_2 by done].
    destruct (config !! "max_size_gb") as [b|] eqn:Hb;
      [rewrite (subscript_Some _ _ _ _ _ Hb), bool_decide_eq_false_2 by done
      |by rewrite (subscript_None _ _ _ _ Hb), bool_decide_eq_true_2 by done].
    by eexists.
  - cbv zeta.
    destruct (config !! "ttl_seconds") as [a|] eqn:Ha;
      [rewrite (subscript_Some _ _ _ _ _ Ha), bool_decide_eq_false_2 by done
      |by rewrite (subscript_None _ _ _ _ Ha), bool_decide_eq_true_2 by done].
    destruct (config !! "capacity_mb") as [b|] eqn:Hb;
      [rewrite (subscript_Some _ _ _ _ _ Hb), bool_decide_eq_false_2 by done
      |by rewrite (subscript_None _ _ _ _ Hb), bool_decide_eq_true_2 by done].
    by eexists.
Qed.

Lemma factory_reports_first_missing_field_witness :
  let config : gmap string pyval :=
    {[ "id" := PyStr "1"; "name" := PyStr "W"; "replica_count" := PyInt 3 ]} in
  ResourceFactory.create_resource ResourceFactory.new "AppService" config []
  = (Raise (KeyError "runtime"), [], []).
Proof.
  intros config.
  apply (factory_reports_first_missing_field config [] "AppService"
           ["id"; "name"; "runtime"; "region"; "replica_count"]).
  apply list_elem_of_here.
Defined.

Lemma register_run f ty cls :
  ResourceFactory.register ty cls f
  = (Ok (), {| registry := <[ty := cls]> (registry f) |},
     [Print ("Registered resource type: " +:+ ty)]).
Proof. reflexivity. Qed.

(** X15. Registering a class under a tag other than the three built-in ones
    lists the tag but does not make it creatable: [create_resource] for it
    raises [ValueError] whatever the class and the configuration, and
    allocates nothing. *)
Theorem registered_tag_is_not_creatable (f : ResourceFactory) (ty : string)
    (cls : resource_class) (config : gmap string pyval) (h : Heap) :
  ty ≠ "AppService" → ty ≠ "StorageAccount" → ty ≠ "CacheDB" →
  let f' := post (ResourceFactory.register ty cls f) in
  ty ∈ ResourceFactory.list_available_types f'
  ∧ ResourceFactory.create_resource f' ty config h
    = (Raise (ValueError ("Cannot instantiate resource type: " +:+ ty)), h, []).
Proof.
  intros H1 H2 H3 f'. unfold f'. rewrite register_run. cbn [post fst snd]. split.
  - unfold ResourceFactory.list_available_types. cbn [registry].
    apply list_elem_of_fmap. exists (ty, cls). split; [done|].
    apply elem_of_map_to_list, lookup_insert_eq.
  - unfold ResourceFactory.create_resource. cbn [registry].
    rewrite lookup_insert_eq.
    apply String.eqb_neq in H1, H2, H3. by rewrite H1, H2, H3.
Qed.

Lemma registered_tag_is_not_creatable_witness :
  let f' := post (ResourceFactory.register "Database" AppService_class
                    ResourceFactory.new) in
  "Database" ∈ ResourceFactory.list_available_types f'
  ∧ ResourceFactory.create_resource f' "Database"
      {[ "id" := PyStr "1"; "name" := PyStr "db"; "runtime" := PyStr "x";
         "region" := PyStr "y"; "replica_count" := PyInt 1 ]} []
    = (Raise (ValueError "Cannot instantiate resource type: Database"), [], []).
Proof.
  apply (registered_tag_is_not_creatable ResourceFactory.new "Database" AppService_class);
    done.
Defined.

(** X16. [list_available_types] names every registered tag once and nothing
    else; a new factory lists the three built-in tags; [register] adds its
    tag to the list, keeps every other tag and its class, and replaces the
    class of a tag that was there. *)
Theorem registry_listing (f : ResourceFactory) (ty : string) (cls : resource_class) :
  NoDup (ResourceFactory.list_available_types f)
  ∧ (∀ t, t ∈ ResourceFactory.list_available_types f ↔ is_Some (registry f !! t))
  ∧ (∀ t, t ∈ ResourceFactory.list_available_types ResourceFactory.new
          ↔ t ∈ ["AppService"; "StorageAccount"; "CacheDB"])
  ∧ (∀ t, t ∈ ResourceFactory.list_available_types
                (post (ResourceFactory.register ty cls f))
          ↔ t = ty ∨ t ∈ ResourceFactory.list_available_types f)
  ∧ registry (post (ResourceFactory.register ty cls f)) !! ty = Some cls
  ∧ (∀ t, t ≠ ty →
       registry (post (ResourceFactory.register ty cls f)) !! t = registry f !! t).
Proof.
  assert (∀ g t, t ∈ ResourceFactory.list_available_types g ↔ is_Some (registry g !! t))
    as Hlist.
  { intros g t. unfold ResourceFactory.list_available_types. split.
    - intros ((t' & c) & -> & Hin)%list_elem_of_fmap.
      apply elem_of_map_to_list in Hin. by exists c.
    - intros [c Hc]. apply list_elem_of_fmap. exists (t, c). split; [done|].
      by apply elem_of_map_to_list. }
  split_and!.
  - apply NoDup_fst_map_to_list.
  - apply Hlist.
  - intros t. rewrite Hlist.
    change (registry ResourceFactory.new)
      with (<["CacheDB" := CacheDB_class]>
              (<["StorageAccount" := StorageAccount_class]>
                 (<["AppService" := AppService_class]> (∅ : gmap string resource_class)))).
    rewrite !elem_of_cons, !lookup_insert. repeat case_decide; subst.
    + split; [by auto|by eexists].
    + split; [by auto|by eexists].
    + split; [by auto|by eexists].
    + rewrite lookup_empty. split; [by intros [? ?]|].
      intros [?|[?|[?|?%elem_of_nil]]]; done.
  - intros t. rewrite !Hlist, register_run. cbn [post fst snd registry].
    rewrite lookup_insert. case_decide; subst.
    + split; [by left|by eexists].
    + split; [by right|]. by intros [?|?].
  - rewrite register_run. apply lookup_insert_eq.
  - intros t Hne. rewrite register_run. by apply lookup_insert_ne.
Qed.

(** ** The Manager with a user logged in *)

(** X17. A lifecycle request with a user logged in.  For an identifier
    that is not in the collection it returns [False] and changes nothing.
    For a stored resource it follows the table: where the table gives a
    state the request returns [True], the resource is in that state and the
    Manager's own attributes are untouched; where the table says "fails"
    the [ValueError] of the resource leaves the Manager uncaught and the
    system is as it was. *)
Theorem manager_lifecycle_request (s : System) (u : User) (op : operation) (i : string) :
  reachable s → current_user (manager s) = Some u →
  match resources (manager s) !! i with
  | None =>
      outcome (ResourceManager.operate op i s) = Ok false
      ∧ post (ResourceManager.operate op i s) = s
  | Some l =>
      ∃ st, outcome (CloudResource.get_state l (heap s)) = Ok (get_state_name st)
        ∧ match transition st op with
          | Some st' =>
              outcome (ResourceManager.operate op i s) = Ok true
              ∧ manager (post (ResourceManager.operate op i s)) = manager s
              ∧ outcome (CloudResource.get_state l
                           (heap (post (ResourceManager.operate op i s))))
                = Ok (get_state_name st')
          | None =>
              outcome (ResourceManager.operate op i s)
              = Raise (ValueError (refusal st op))
              ∧ post (ResourceManager.operate op i s) = s
          end
  end.
Proof.
  intros Hreach Hu. unfold ResourceManager.operate.
  rewrite (gate_open _ _ _ Hu). cbn [negb].
  unfold ResourceManager.get_resource. unfold_monad.
  destruct (resources (manager s) !! i) as [l|] eqn:Hl; [|done].
  destruct (handles_resolve _ (reachable_consistent _ Hreach) _ _ Hl)
    as (b & k & Hch & Hk).
  destruct (delegates_plain _ _ _ _ Hch) as (o & Hb & Hd).
  exists (attr_current_state o).
  split; [by rewrite (get_state_resolved _ _ _ _ _ Hch Hk Hb)|].
  destruct (call_resolved _ _ _ _ _ op Hch Hk Hb) as [out ->].
  destruct (transition (attr_current_state o) op) as [st'|]; cbn [outcome post fst snd].
  - split; [done|]. split; [done|]. cbn [heap].
    rewrite (get_state_resolved _ l b k (assign_current_state st' o)).
    + simpl. by rewrite attr_current_state_assign.
    + apply delegates_insert; [done|by eauto|by rewrite is_decorator_assign].
    + by rewrite length_insert.
    + apply list_lookup_insert_eq. by eapply lookup_lt_Some.
  - split; [done|]. apply system_eta.
Qed.

Lemma manager_lifecycle_request_witness :
  let repo := {| filepath := "users.json" |} in
  let s := serve_all
             [RegisterUser "alice" "pw1" "admin"; Login "alice" "pw1";
              CreateResource "AppService"
                {[ "name" := PyStr "W"; "runtime" := PyStr "Python";
                   "region" := PyStr "us-east-1"; "replica_count" := PyInt 3 ]} true;
              StartResource "1"]
             (boot repo (FileLogin repo) {[ "users.json" := [] ]}) in
  reachable s
  ∧ current_user (manager s)
    = Some {| username := "alice"; password := "pw1"; role := "admin" |}
  ∧ outcome (ResourceManager.start_resource "1" s)
    = Raise (ValueError "Resource is already running")
  ∧ post (ResourceManager.start_resource "1" s) = s.
Proof.
  intros repo s.
  assert (reachable s) as Hreach by (do 4 eexists; reflexivity).
  assert (current_user (manager s)
          = Some {| username := "alice"; password := "pw1"; role := "admin" |}) as Hu
    by reflexivity.
  split; [exact Hreach|]. split; [exact Hu|].
  assert (resources (manager s) !! "1" = Some 1) as Hl by (vm_compute; reflexivity).
  assert (outcome (CloudResource.get_state 1 (heap s)) = Ok "RUNNING") as Hrun
    by (vm_compute; reflexivity).
  pose proof (manager_lifecycle_request s _ Start "1" Hreach Hu) as H.
  rewrite Hl in H. destruct H as (st & Hst & H).
  rewrite Hrun in Hst. injection Hst as Hst.
  apply (get_state_name_inj RunningState) in Hst. subst st.
  exact H.
Defined.



(** X19. With a user logged in, [create_resource] for a type that the
    factory of the Manager does not know (any tag but the three built-in
    ones) raises [ValueError] naming the type; nothing is stored, the
    counter does not move and no object is allocated. *)
Theorem manager_rejects_unknown_type (s : System) (u : User) (ty : string)
    (config : gmap string pyval) (lg : bool) :
  reachable s → current_user (manager s) = Some u →
  ty ≠ "AppService" → ty ≠ "StorageAccount" → ty ≠ "CacheDB" →
  ResourceManager.create_resource ty config lg s
  = (Raise (ValueError ("Unknown resource type: " +:+ ty)), s, []).
Proof.
  intros Hreach Hu H1 H2 H3. unfold ResourceManager.create_resource.
  rewrite (gate_open _ _ _ Hu). cbn [negb]. unfold_monad. rewrite Hu.
  unfold ResourceFactory.create_resource. rewrite (reachable_factory _ Hreach).
  assert (registry ResourceFactory.new !! ty = None) as ->.
  { change (registry ResourceFactory.new)
      with (<["CacheDB" := CacheDB_class]>
              (<["StorageAccount" := StorageAccount_class]>
                 (<["AppService" := AppService_class]> (∅ : gmap string resource_class)))).
    by rewrite !lookup_insert_ne by done. }
  unfold raise. by rewrite system_eta.
Qed.

Lemma manager_rejects_unknown_type_witness :
  let repo := {| filepath := "users.json" |} in
  let s := serve_all [RegisterUser "alice" "pw1" "admin"; Login "alice" "pw1"]
             (boot repo (FileLogin repo) {[ "users.json" := [] ]}) in
  reachable s
  ∧ ResourceManager.create_resource "Database" ∅ false s
    = (Raise (ValueError "Unknown resource type: Database"), s, []).
Proof.
  intros repo s.
  assert (reachable s) as Hreach by (do 4 eexists; reflexivity).
  split; [exact Hreach|].
  apply (manager_rejects_unknown_type s
           {| username := "alice"; password := "pw1"; role := "admin" |}
           "Database" ∅ false Hreach); [vm_compute; reflexivity|done..].
Defined.

(** ** The application with authentication *)

Lemma repository_new_run create path (fs : Files) :
  (fs !! path = None ∧ ∃ e, create path = Some e
     ∧ UserRepository.new create path fs = (Raise e, fs, []))
  ∨ ((is_Some (fs !! path) ∨ create path = None)
     ∧ ∃ fs', UserRepository.new create path fs = (Ok {| filepath := path |}, fs', [])
              ∧ fs' !! path = Some (default [] (fs !! path))
              ∧ ∀ other, other ≠ path → fs' !! other = fs !! other).
Proof.
  unfold UserRepository.new, UserRepository._ensure_file_exists,
    UserRepository._write_data. unfold_monad. cbn [filepath].
  destruct (fs !! path) as [users|] eqn:Hfile.
  - right. split; [left; by eexists|]. by exists fs.
  - destruct (create path) as [e|] eqn:Hcreate.
    + left. split; [done|]. by exists e.
    + right. split; [by right|].
      exists (<[path := []]> fs). split; [done|]. split; [apply lookup_insert_eq|].
      intros other Hne. by apply lookup_insert_ne.
Qed.

Lemma initialize_default_users_run repo (fs : Files) users :
  fs !! filepath repo = Some users →
  ∃ out,
    CloudResourceManagerApp._initialize_default_users repo fs
    = (Ok (),
       match users with
       | [] => <[filepath repo :=
                   [to_dict {| username := "admin"; password := "admin123";
                               role := "admin" |};
                    to_dict {| username := "user"; password := "user123";
                               role := "user" |}]]> fs
       | _ :: _ => fs
       end, out).
Proof.
  intros Hfile. unfold CloudResourceManagerApp._initialize_default_users,
    UserRepository.get_all_users.
  unfold_monad. unfold UserRepository._read_data at 1. rewrite Hfile.
  destruct users as [|u users]; [|by eexists].
  cbn [fmap list_fmap].
  rewrite (add_user_fresh repo _ fs [] Hfile) by apply not_elem_of_nil.
  rewrite (add_user_fresh repo _ _ _ (lookup_insert_eq _ _ _)).
  - rewrite insert_insert_eq. by eexists.
  - cbn. intros [[=]|[]%elem_of_nil]%elem_of_cons.
Qed.



(** X21. The demo switch of the application.  [switch_to_service_login]
    replaces the login service of the Manager and nothing else; from then
    on [login] accepts every user of the store with any password that is
    not empty. *)
Theorem service_switch_opens_accounts (s : System) (users : list user_data)
    (name pass : string) :
  files s !! filepath (user_repository (manager s)) = Some users →
  name ∈ ud_username <$> users → name ≠ "" → pass ≠ "" →
  let s1 := post (CloudResourceManagerApp.switch_to_service_login s) in
  outcome (CloudResourceManagerApp.switch_to_service_login s) = Ok ()
  ∧ s1 = {| manager :=
              set_login_service
                (ServiceLogin "https://auth.example.com" "demo-api-key-12345")
                (manager s);
            heap := heap s; files := files s |}
  ∧ outcome (ResourceManager.login name pass s1) = Ok true
  ∧ ∃ u, current_user (manager (post (ResourceManager.login name pass s1))) = Some u
         ∧ username u = name.
Proof.
  intros Hfile Hin Hname Hpass s1.
  assert (outcome (CloudResourceManagerApp.switch_to_service_login s) = Ok ()
          ∧ s1 = {| manager :=
                      set_login_service
                        (ServiceLogin "https://auth.example.com" "demo-api-key-12345")
                        (manager s);
                    heap := heap s; files := files s |}) as [Hout Hs1] by done.
  split; [done|]. split; [done|]. rewrite Hs1.
  unfold ResourceManager.login. unfold_monad.
  cbn [manager login_service user_repository set_login_service files heap].
  destruct (service_authenticate_run "https://auth.example.com" "demo-api-key-12345"
              name pass (files s)) as [out ->].
  apply String.eqb_neq in Hname, Hpass. rewrite Hname, Hpass.
  cbn [negb andb files manager heap]. rewrite (find_by_username_run _ _ _ name Hfile).
  destruct (List.find _ users) as [u|] eqn:Hfind.
  - split; [done|]. exists (from_dict u). split; [done|].
    apply List.find_some in Hfind as [_ Heq]. by apply String.eqb_eq in Heq.
  - by apply find_absent in Hfind.
Qed.

Lemma service_switch_opens_accounts_witness :
  let s := {| manager := ResourceManager.new {| filepath := "data/users.json" |}
                           (FileLogin {| filepath := "data/users.json" |});
              heap := [];
              files := {[ "data/users.json" :=
                            [{| ud_username := "admin"; ud_password := "admin123";
                                ud_role := Some "admin" |}] ]} |} in
  outcome (ResourceManager.login "admin" "guess" s) = Ok false
  ∧ outcome (ResourceManager.login "admin" "guess"
               (post (CloudResourceManagerApp.switch_to_service_login s))) = Ok true.
Proof.
  intros s. split; [reflexivity|].
  apply (service_switch_opens_accounts s
           [{| ud_username := "admin"; ud_password := "admin123";
               ud_role := Some "admin" |}] "admin" "guess");
    [reflexivity|apply list_elem_of_here|done|done].
Defined.
